(** * PAION web player (AIFM containers): integrity verification, metadata
    lookup and asset resolution of [paion_player.py]

    A shallow embedding of the verification and resolution core of
    [SRC/paion_player.py]: [safe_get], [normalize_verify],
    [builtin_verify_aifm], [choose_member_by_ext] and its callers, and
    [PaionState.get_track_info].

    Conventions of the embedding.
    - A Python [str] is a Rocq [string] holding its UTF-8 bytes.  Byte-wise
      lexicographic order on UTF-8 is code-point order, which is how Python
      compares strings.
    - [str.lower] lower-cases the letters [A-Z] of ASCII text, which is
      computed here ([Str.lower]); on text with a character outside ASCII it
      is the lower-casing of the Unicode database, a parameter of the
      development ([unicode_lower]), and [str_lower] is the two together.
      Where the program only tests the lower-cased text against ASCII
      constants (the algorithm name, a prefix, an extension, a hint, a hex
      digest), the two give the same answer on every text, since no
      character outside ASCII lower-cases to text that completes one of
      these constants, and the test is written with [Str.lower]; so is the
      lower-casing of an extension that has passed such a test (the [ext]
      of an asset), which is ASCII text.  Where the lower-cased text of any
      name or request is used itself (the sort key of
      [choose_member_by_ext], the asset kind), it is [str_lower].
    - [str.strip] removes the white space of Unicode, in its UTF-8 bytes.
    - A JSON document, once parsed by [json.loads], is a [value]; a Python
      dict keeps insertion order and is an association list.
    - Code that may raise returns a [result]; a [try/except Exception] is a
      match on it.  The model's exceptions stand for instances of
      [Exception], identified by their message [str(e)].
    - Library calls whose result the player only passes around are
      parameters of the development: [hashlib.sha256(..).hexdigest()],
      [json.loads(raw.decode("utf-8"))], [zipfile.ZipFile(path, "r")], the
      [str()] of a list or dict, and the optional external verifier. *)

From Stdlib Require Import ZArith Ascii String List Permutation Sorted Lia.
From stdpp Require Import base decidable option list strings pretty gmap.

#[local] Set Warnings "-register-all".

Local Open Scope Z_scope.
Local Open Scope string_scope.
Local Open Scope list_scope.

(** ** Python strings *)

Module Str.

Definition lower_char (c : ascii) : ascii :=
  let n := nat_of_ascii c in
  if ((65 <=? n) && (n <=? 90))%nat then ascii_of_nat (n + 32) else c.

(** [s.lower()] on ASCII text: the letters [A-Z] are lower-cased. *)
Fixpoint lower (s : string) : string :=
  match s with
  | EmptyString => EmptyString
  | String c s' => String (lower_char c) (lower s')
  end.

(** [s.isascii()] *)
Fixpoint isascii (s : string) : bool :=
  match s with
  | EmptyString => true
  | String c s' => (nat_of_ascii c <? 128)%nat && isascii s'
  end.

(** [s.startswith(p)] *)
Definition startswith (s p : string) : bool := String.prefix p s.

(** [s.endswith(p)] *)
Definition endswith (s p : string) : bool :=
  String.prefix (String.rev p) (String.rev s).

(** [h in s] for strings: [h] occurs in [s] as a substring. *)
Fixpoint contains (s h : string) : bool :=
  String.prefix h s ||
  match s with
  | EmptyString => false
  | String _ s' => contains s' h
  end.

(** [s.split(sep)] for a one-character separator. *)
Fixpoint split (sep : ascii) (s : string) : list string :=
  match s with
  | EmptyString => [EmptyString]
  | String c s' =>
      if Ascii.eqb c sep then EmptyString :: split sep s'
      else match split sep s' with
           | [] => [String c EmptyString]
           | p :: ps => String c p :: ps
           end
  end.

(** [s.rfind(".")], [None] standing for Python's [-1]. *)
Fixpoint rfind_dot (s : string) : option nat :=
  match s with
  | EmptyString => None
  | String c s' =>
      match rfind_dot s' with
      | Some i => Some (S i)
      | None => if Ascii.eqb c "." then Some 0%nat else None
      end
  end.

(** [s.lstrip(".")] *)
Fixpoint lstrip_dot (s : string) : string :=
  match s with
  | String c s' => if Ascii.eqb c "." then lstrip_dot s' else s
  | EmptyString => EmptyString
  end.

(** The characters that [str.strip()] removes are those of [str.isspace]:
    U+0009 to U+000D, U+001C to U+0020, U+0085, U+00A0, U+1680, U+2000 to
    U+200A, U+2028, U+2029, U+202F, U+205F and U+3000.  In UTF-8 the first
    ten are one byte, the next two are two bytes and the others three. *)
Definition is_space (c : ascii) : bool :=
  let n := nat_of_ascii c in
  (((9 <=? n) && (n <=? 13)) || ((28 <=? n) && (n <=? 32)))%nat.

(** U+0085 is [C2 85] and U+00A0 is [C2 A0]. *)
Definition is_space2 (c1 c2 : ascii) : bool :=
  let n1 := nat_of_ascii c1 in
  let n2 := nat_of_ascii c2 in
  ((n1 =? 194) && ((n2 =? 133) || (n2 =? 160)))%nat.

(** U+1680 is [E1 9A 80]; U+2000 to U+200A are [E2 80 80] to [E2 80 8A],
    U+2028, U+2029 and U+202F are [E2 80 A8], [E2 80 A9] and [E2 80 AF];
    U+205F is [E2 81 9F]; U+3000 is [E3 80 80]. *)
Definition is_space3 (c1 c2 c3 : ascii) : bool :=
  let n1 := nat_of_ascii c1 in
  let n2 := nat_of_ascii c2 in
  let n3 := nat_of_ascii c3 in
  (((n1 =? 225) && (n2 =? 154) && (n3 =? 128))
   || ((n1 =? 226) && (n2 =? 128)
       && (((128 <=? n3) && (n3 <=? 138)) || (n3 =? 168) || (n3 =? 169) || (n3 =? 175)))
   || ((n1 =? 226) && (n2 =? 129) && (n3 =? 159))
   || ((n1 =? 227) && (n2 =? 128) && (n3 =? 128)))%nat.

(** The text without the white space at its head.  With [backwards] the
    text is read from its end, so the bytes of a character come in reverse
    order. *)
Fixpoint lstrip_bytes (backwards : bool) (s : string) : string :=
  match s with
  | String c1 s1 =>
      if is_space c1 then lstrip_bytes backwards s1
      else
        match s1 with
        | String c2 s2 =>
            if (if backwards then is_space2 c2 c1 else is_space2 c1 c2)
            then lstrip_bytes backwards s2
            else
              match s2 with
              | String c3 s3 =>
                  if (if backwards then is_space3 c3 c2 c1 else is_space3 c1 c2 c3)
                  then lstrip_bytes backwards s3
                  else s
              | EmptyString => s
              end
        | EmptyString => s
        end
  | EmptyString => EmptyString
  end.

(** [s.lstrip()] *)
Definition lstrip (s : string) : string := lstrip_bytes false s.

(** [s.rstrip()] *)
Definition rstrip (s : string) : string :=
  String.rev (lstrip_bytes true (String.rev s)).

(** [s.strip()] *)
Definition strip (s : string) : string := rstrip (lstrip s).

(** [x in xs] for a tuple of strings. *)
Definition mem (x : string) (xs : list string) : bool :=
  existsb (String.eqb x) xs.

(** [xs.index(x)], [None] standing for the [ValueError]. *)
Fixpoint index (x : string) (xs : list string) : option Z :=
  match xs with
  | [] => None
  | y :: ys => if String.eqb y x then Some 0
               else option_map Z.succ (index x ys)
  end.

End Str.

(** ** [pathlib]: the POSIX flavour of [Path(s).name] and [Path(s).suffix],
    as CPython has them up to version 3.13 *)

Module PurePath.

(** The parts of a path: the components between slashes, the empty ones and
    the ["."] ones dropped. *)
Definition parts (s : string) : list string :=
  List.filter (fun x => negb (String.eqb x "") && negb (String.eqb x "."))
         (Str.split "/" s).

Definition name (s : string) : string := List.last (parts s) "".

(** [i = name.rfind("."); name[i:] if 0 < i < len(name) - 1 else ""] *)
Definition suffix (s : string) : string :=
  let n := name s in
  match Str.rfind_dot n with
  | Some i =>
      if ((0 <? i) && (i <? String.length n - 1))%nat
      then String.substring i (String.length n - i) n
      else ""
  | None => ""
  end.

End PurePath.

Example suffix_pdf : PurePath.suffix "metadata/decl.pdf" = ".pdf".
Proof. reflexivity. Qed.

Example suffix_hidden : PurePath.suffix "metadata/.txt" = "".
Proof. reflexivity. Qed.

Example split_dotted : Str.split "." "aifx.governance.mode" = ["aifx"; "governance"; "mode"].
Proof. reflexivity. Qed.

(** ** Python values *)

(** What [json.loads] returns.  A float is known by what the player can
    observe of it: whether it is non-zero (its truth value) and its [repr]. *)
Inductive value : Type :=
| VNone
| VBool (b : bool)
| VInt (n : Z)
| VFloat (nonzero : bool) (repr : string)
| VStr (s : string)
| VList (xs : list value)
| VDict (items : list (string * value)).

(** A dict with string keys, in insertion order. *)
Abbreviation dict := (list (string * value)).

Definition bytes := list Byte.byte.
Definition Path := string.

(** [k in d] and [d[k]] *)
Fixpoint dict_lookup (d : dict) (k : string) : option value :=
  match d with
  | [] => None
  | (k', v) :: d' => if String.eqb k' k then Some v else dict_lookup d' k
  end.

(** [d.get(k, default)] *)
Definition dict_get (d : dict) (k : string) (default : value) : value :=
  match dict_lookup d k with
  | Some v => v
  | None => default
  end.

(** [bool(v)] *)
Definition truthy (v : value) : bool :=
  match v with
  | VNone => false
  | VBool b => b
  | VInt n => negb (Z.eqb n 0)
  | VFloat nonzero _ => nonzero
  | VStr s => negb (String.eqb s "")
  | VList xs => match xs with [] => false | _ => true end
  | VDict items => match items with [] => false | _ => true end
  end.

(** [isinstance(v, int)]: in Python [bool] is a subclass of [int]. *)
Definition isinstance_int (v : value) : bool :=
  match v with
  | VInt _ | VBool _ => true
  | _ => false
  end.

(** [isinstance(v, dict)] *)
Definition isinstance_dict (v : value) : bool :=
  match v with
  | VDict _ => true
  | _ => false
  end.

(** [n != v] for an [int] [n] and a [v] with [isinstance(v, int)]; [True] and
    [False] compare as 1 and 0. *)
Definition int_ne (n : Z) (v : value) : bool :=
  match v with
  | VInt m => negb (Z.eqb n m)
  | VBool b => negb (Z.eqb n (if b then 1 else 0))
  | _ => true
  end.

(** [type(v).__name__] *)
Definition type_name (v : value) : string :=
  match v with
  | VNone => "NoneType"
  | VBool _ => "bool"
  | VInt _ => "int"
  | VFloat _ _ => "float"
  | VStr _ => "str"
  | VList _ => "list"
  | VDict _ => "dict"
  end.

(** ** Exceptions *)

(** An instance of [Exception], known by its message [str(e)]. *)
Definition Exception := string.

Inductive result (A : Type) : Type :=
| Ok (a : A)
| Raise (e : Exception).
Arguments Ok {A} a.
Arguments Raise {A} e.

Definition bind {A B : Type} (r : result A) (k : A -> result B) : result B :=
  match r with
  | Ok a => k a
  | Raise e => Raise e
  end.

Notation "x <- r ;; k" := (bind r (fun x => k))
  (at level 100, r at next level, right associativity, only parsing).

(** [v.get(k, default)] on any value: an [AttributeError] unless [v] is a
    dict. *)
Definition attr_get (v : value) (k : string) (default : value) : result value :=
  match v with
  | VDict d => Ok (dict_get d k default)
  | _ => Raise ("'" +:+ type_name v +:+ "' object has no attribute 'get'")
  end.

(** ** Archives *)

(** An opened [zipfile.ZipFile]: [z.namelist()] and [z.read(name)]. *)
Record ZipFile : Type := {
  namelist : list string;
  read : string -> result bytes
}.

(** A result object of the external verifier, known by the three attributes
    the player reads with [getattr(r, name, default)]. *)
Record CheckObject : Type := {
  attr_ok : option value;
  attr_path : option value;
  attr_reason : option value
}.

(** [class BuiltinCheck] *)
Record BuiltinCheck : Type := {
  ok : bool;
  path : string;
  reason : string
}.

(** ** Sample archives

    A small concrete environment on which the model runs: three archives, a
    parser that knows their manifests, and stand-ins for the digest and for
    the [str()] of containers. *)

Module Sample.

Definition container_str (v : value) : string := "<container>".

(** A stand-in for the lower-casing of Unicode: besides the ASCII letters,
    the capital letters of the Latin-1 supplement, U+00C0 to U+00DE without
    the multiplication sign U+00D7 ([C3 80] to [C3 9E] without [C3 97] in
    UTF-8), go to their small letters, 32 code points up. *)
Fixpoint unicode_lower (s : string) : string :=
  match s with
  | EmptyString => EmptyString
  | String c1 s1 =>
      match s1 with
      | String c2 s2 =>
          let n2 := nat_of_ascii c2 in
          if ((nat_of_ascii c1 =? 195) && (128 <=? n2) && (n2 <=? 158)
              && negb (n2 =? 151))%nat
          then String c1 (String (ascii_of_nat (n2 + 32)) (unicode_lower s2))
          else String (Str.lower_char c1) (unicode_lower s1)
      | EmptyString => String (Str.lower_char c1) EmptyString
      end
  end.

(** The UTF-8 bytes of U+00C0 (capital A with grave), U+00E0 (small a with
    grave), U+00D7 (the multiplication sign) and U+00A0 (the no-break
    space). *)
Definition A_grave : string := String "195" (String "128" "").
Definition a_grave : string := String "195" (String "160" "").
Definition times_sign : string := String "195" (String "151" "").
Definition nbsp : string := String "194" (String "160" "").

(** A stand-in digest: the length of the data, in decimal. *)
Definition sha256_hexdigest (data : bytes) : string := pretty (Z.of_nat (length data)).

Definition song : bytes := [Byte.x52; Byte.x49; Byte.x46; Byte.x46].
Definition cover_png : bytes := [Byte.x89; Byte.x50].

(** The manifests, as [json.loads] returns them; the bytes of a manifest
    member are a one-byte tag in these samples. *)
Definition good_manifest : value :=
  VDict [("creator", VDict [("name", VStr ""); ("id", VInt 7)]);
         ("author", VStr "Bob");
         ("mode", VStr "human-directed");
         ("integrity",
          VDict [("algorithm", VStr "SHA256");
                 ("hashed_files",
                  VDict [("payload/song.wav", VDict [("sha256", VStr "9"); ("bytes", VInt 5)]);
                         ("metadata/cover.png", VDict [("sha256", VStr "2"); ("bytes", VInt 2)]);
                         ("metadata/notes.txt", VDict [("sha256", VStr "0")])])])].

Definition bare_manifest : value := VDict [("author", VStr "Ann")].

Definition json_loads (raw : bytes) : result value :=
  match raw with
  | [Byte.x01] => Ok good_manifest
  | [Byte.x02] => Ok bare_manifest
  | _ => Raise "Expecting value: line 1 column 1 (char 0)"
  end.

Definition members (files : list (string * bytes)) (n : string) : result bytes :=
  match List.find (fun f => String.eqb f.1 n) files with
  | Some f => Ok f.2
  | None => Raise ("There is no item named " +:+ n +:+ " in the archive")
  end.

Definition archive (files : list (string * bytes)) : ZipFile :=
  {| namelist := map fst files; read := members files |}.

Definition good_aifm : ZipFile :=
  archive [("manifest.json", [Byte.x01]); ("payload/song.wav", song);
           ("metadata/cover.png", cover_png); ("metadata/decl.txt", []);
           ("metadata/decl.pdf", [])].

Definition bare_aifm : ZipFile :=
  archive [("manifest.json", [Byte.x02]); ("payload/song.wav", song)].

Definition empty_aifm : ZipFile := archive [("payload/song.wav", song)].

Definition ZipFile_open (aifm_path : Path) : result ZipFile :=
  if String.eqb aifm_path "good.aifm" then Ok good_aifm
  else if String.eqb aifm_path "bare.aifm" then Ok bare_aifm
  else if String.eqb aifm_path "empty.aifm" then Ok empty_aifm
  else Raise "File is not a zip file".

(** An external verifier that always fails. *)
Definition failing_verify (aifm_path : Path) : result (value * list CheckObject) :=
  Raise "verifier crashed".

(** An external verifier that reports a container as not ok while each of
    its checks passes. *)
Definition strict_verify (aifm_path : Path) : result (value * list CheckObject) :=
  Ok (VBool false,
      [{| attr_ok := Some (VBool true);
          attr_path := Some (VStr "payload/song.wav");
          attr_reason := Some (VStr "") |}]).

End Sample.

(** Two more sample archives: one whose declared entries all match, and one
    whose only mismatch is the entry keyed [manifest.json]. *)
Module Sample2.

Definition intact_items : list (string * value) :=
  [("payload/song.wav", VDict [("sha256", VStr "4"); ("bytes", VInt 4)]);
   ("metadata/cover.png", VDict [("sha256", VStr "2")])].

Definition intact_manifest : value :=
  VDict [("author", VStr "Ann");
         ("integrity", VDict [("hashed_files", VDict intact_items)])].

Definition warn_items : list (string * value) :=
  [("manifest.json", VDict [("bytes", VInt 99)]);
   ("payload/song.wav", VDict [("bytes", VInt 4)])].

Definition warn_manifest : value :=
  VDict [("integrity", VDict [("algorithm", VStr "sha256");
                              ("hashed_files", VDict warn_items)])].

(** A manifest whose [integrity] is [null]. *)
Definition null_integrity_manifest : value := VDict [("integrity", VNone)].

(** A manifest that declares a cover with another digest than the stand-in
    gives, and a payload without digest or size. *)
Definition corrupt_items : list (string * value) :=
  [("metadata/cover.png", VDict [("sha256", VStr "7")]);
   ("payload/song.wav", VDict [])].

Definition corrupt_manifest : value :=
  VDict [("integrity", VDict [("hashed_files", VDict corrupt_items)])].

Definition json_loads (raw : bytes) : result value :=
  match raw with
  | [Byte.x03] => Ok intact_manifest
  | [Byte.x04] => Ok warn_manifest
  | [Byte.x05] => Ok null_integrity_manifest
  | [Byte.x06] => Ok corrupt_manifest
  | _ => Raise "Expecting value: line 1 column 1 (char 0)"
  end.

Definition intact_aifm : ZipFile :=
  Sample.archive [("manifest.json", [Byte.x03]); ("payload/song.wav", Sample.song);
                  ("metadata/cover.png", Sample.cover_png)].

Definition warn_aifm : ZipFile :=
  Sample.archive [("manifest.json", [Byte.x04]); ("payload/song.wav", Sample.song)].

Definition null_integrity_aifm : ZipFile :=
  Sample.archive [("manifest.json", [Byte.x05]); ("payload/song.wav", Sample.song)].

(** An archive whose member [payload/song.wav] is listed and fails the CRC
    check of [ZipFile.read]. *)
Definition corrupt_aifm : ZipFile :=
  {| namelist := ["manifest.json"; "metadata/cover.png"; "payload/song.wav"];
     read := fun n =>
       if String.eqb n "payload/song.wav"
       then Raise "Bad CRC-32 for file 'payload/song.wav'"
       else Sample.members [("manifest.json", [Byte.x06]);
                            ("metadata/cover.png", Sample.cover_png)] n |}.

Definition ZipFile_open (aifm_path : Path) : result ZipFile :=
  if String.eqb aifm_path "intact.aifm" then Ok intact_aifm
  else if String.eqb aifm_path "warn.aifm" then Ok warn_aifm
  else if String.eqb aifm_path "null.aifm" then Ok null_integrity_aifm
  else if String.eqb aifm_path "corrupt.aifm" then Ok corrupt_aifm
  else Raise "File is not a zip file".

End Sample2.

(** ** The player *)

Section Player.

#[local] Set Default Proof Using "Type".

(** [s.lower()] for a [str] with a character outside ASCII: the lower-casing
    of the Unicode database, special cases included. *)
Variable unicode_lower : string -> string.
(** [str(v)] of a list or dict (their [repr]). *)
Variable container_str : value -> string.
(** [hashlib.sha256(data).hexdigest()] *)
Variable sha256_hexdigest : bytes -> string.
(** [json.loads(raw.decode("utf-8"))] *)
Variable json_loads : bytes -> result value.
(** [zipfile.ZipFile(aifm_path, "r")] on the files of the machine. *)
Variable ZipFile_open : Path -> result ZipFile.
(** The module-level [VERIFY_FN = load_verifier()]: the [verify] function of
    [verify_aifm.py] when it can be imported, [None] otherwise.  A return
    value that cannot be unpacked or iterated raises inside the same [try]
    block as the call, and is a raising call here. *)
Variable VERIFY_FN : option (Path -> result (value * list CheckObject)).

(** [s.lower()] *)
Definition str_lower (s : string) : string :=
  if Str.isascii s then Str.lower s else unicode_lower s.

(** [str(v)] *)
Definition py_str (v : value) : string :=
  match v with
  | VNone => "None"
  | VBool true => "True"
  | VBool false => "False"
  | VInt n => pretty n
  | VFloat _ repr => repr
  | VStr s => s
  | VList _ | VDict _ => container_str v
  end.

(** *** Helpers *)

Fixpoint safe_get_parts (cur : value) (parts : list string) (default : value) : value :=
  match parts with
  | [] => cur
  | part :: parts' =>
      match cur with
      | VDict d =>
          match dict_lookup d part with
          | Some v => safe_get_parts v parts' default
          | None => default
          end
      | _ => default
      end
  end.

Definition safe_get (d : value) (dotted : string) (default : value) : value :=
  safe_get_parts d (Str.split "." dotted) default.

(** [str(f.get("path", ""))] *)
Definition detail_path (f : dict) : string := py_str (dict_get f "path" (VStr "")).

(** [not bool(d.get("ok"))] *)
Definition detail_fails (d : dict) : bool := negb (truthy (dict_get d "ok" VNone)).

Definition normalize_verify (details : list dict) (original_ok : bool)
  : bool * string * bool :=
  let fails := List.filter detail_fails details in
  match fails with
  | [] => (original_ok, if original_ok then "INTACT" else "TAMPERED", false)
  | _ :: _ =>
      let non_manifest_fails :=
        List.filter (fun f => negb (String.eqb (detail_path f) "manifest.json")) fails in
      let manifest_fails :=
        List.filter (fun f => String.eqb (detail_path f) "manifest.json") fails in
      match non_manifest_fails with
      | _ :: _ => (false, "TAMPERED", false)
      | [] =>
          match manifest_fails with
          | _ :: _ => (true, "INTACT (MANIFEST WARN)", true)
          | [] => (original_ok, if original_ok then "INTACT" else "TAMPERED", false)
          end
      end
  end.

(** *** Built-in verifier fallback *)

(** The variables of [builtin_verify_aifm] that its loop updates. *)
Record verify_state : Type := {
  non_manifest_failed : bool;
  manifest_failed : bool;
  checks : list BuiltinCheck
}.

Definition append_check (st : verify_state) (c : BuiltinCheck) : verify_state :=
  {| non_manifest_failed := non_manifest_failed st;
     manifest_failed := manifest_failed st;
     checks := checks st ++ [c] |}.

Definition record_fail (st : verify_state) (relpath reason : string) : verify_state :=
  let st' :=
    if String.eqb relpath "manifest.json"
    then {| non_manifest_failed := non_manifest_failed st;
            manifest_failed := true;
            checks := checks st |}
    else {| non_manifest_failed := true;
            manifest_failed := manifest_failed st;
            checks := checks st |} in
  append_check st' {| ok := false; path := relpath; reason := reason |}.

(** [expected_hash] after [if isinstance(meta, dict): ...]; [""] before. *)
Definition expected_hash_of (meta : value) : string :=
  match meta with
  | VDict m => Str.lower (py_str (dict_get m "sha256" (VStr "")))
  | _ => ""
  end.

(** [expected_bytes] after [if isinstance(meta, dict): ...]; [None] before. *)
Definition expected_bytes_of (meta : value) : value :=
  match meta with
  | VDict m => dict_get m "bytes" VNone
  | _ => VNone
  end.

(** One iteration of [for relpath, meta in hashed_files.items()].  The keys
    of a parsed JSON object are strings, so the [invalid path key] branch
    is never taken. *)
Definition verify_entry (z : ZipFile) (names : gset string) (st : verify_state)
    (relpath : string) (meta : value) : result verify_state :=
  if negb (bool_decide (relpath ∈ names)) then
    Ok (record_fail st relpath "missing file")
  else
    let expected_hash := expected_hash_of meta in
    let expected_bytes := expected_bytes_of meta in
    data <- read z relpath ;;
    let actual_bytes := Z.of_nat (length data) in
    if isinstance_int expected_bytes && int_ne actual_bytes expected_bytes then
      Ok (record_fail st relpath
            ("bytes mismatch: " +:+ pretty actual_bytes +:+ " != " +:+ py_str expected_bytes))
    else
      let h := Str.lower (sha256_hexdigest data) in
      if negb (String.eqb expected_hash "") && negb (String.eqb h expected_hash) then
        Ok (record_fail st relpath "sha256 mismatch")
      else
        Ok (append_check st {| ok := true; path := relpath; reason := "" |}).

(** The loop variables before the loop: both flags down, no check yet. *)
Definition initial_state : verify_state :=
  {| non_manifest_failed := false; manifest_failed := false; checks := [] |}.

Fixpoint verify_entries (z : ZipFile) (names : gset string) (items : dict)
    (st : verify_state) : result verify_state :=
  match items with
  | [] => Ok st
  | (relpath, meta) :: items' =>
      st' <- verify_entry z names st relpath meta ;;
      verify_entries z names items' st'
  end.

(** [manifest.get("integrity", {}) if isinstance(manifest, dict) else {}] *)
Definition manifest_integrity (manifest : value) : value :=
  match manifest with
  | VDict m => dict_get m "integrity" (VDict [])
  | _ => VDict []
  end.

(** [set(z.namelist())] *)
Definition names_of (z : ZipFile) : gset string := list_to_set (namelist z).

(** The body of the [try] block of [builtin_verify_aifm]. *)
Definition builtin_verify_try (aifm_path : Path) : result (bool * list BuiltinCheck) :=
  z <- ZipFile_open aifm_path ;;
  let names := names_of z in
  if negb (bool_decide ("manifest.json" ∈ names)) then
    Ok (false, [{| ok := false; path := "manifest.json"; reason := "missing manifest.json" |}])
  else
    raw <- read z "manifest.json" ;;
    manifest <- json_loads raw ;;
    let integrity := manifest_integrity manifest in
    algo <- attr_get integrity "algorithm" (VStr "sha256") ;;
    hashed_files <- attr_get integrity "hashed_files" (VDict []) ;;
    if negb (String.eqb (Str.lower (py_str algo)) "sha256") then
      Ok (false, [{| ok := false; path := "integrity.algorithm";
                     reason := "unsupported algorithm: " +:+ py_str algo |}])
    else
      match hashed_files with
      | VDict ((_ :: _) as items) =>
          st <- verify_entries z names items initial_state ;;
          if non_manifest_failed st then Ok (false, checks st)
          else if manifest_failed st then Ok (true, checks st)
          else Ok (true, checks st)
      | _ =>
          Ok (false, [{| ok := false; path := "integrity.hashed_files";
                         reason := "missing/empty hashed_files" |}])
      end.

Definition builtin_verify_aifm (aifm_path : Path) : bool * list BuiltinCheck :=
  match builtin_verify_try aifm_path with
  | Ok r => r
  | Raise e => (false, [{| ok := false; path := "builtin_verify"; reason := e |}])
  end.

(** *** Asset selection *)

(** [sorted(pool, key=key)]: Python's sort is stable and compares keys with
    [<] only; an insertion sort that moves an element past the strictly
    smaller ones gives the same list. *)
Section PySorted.
Context {A K : Type} (lt : K -> K -> bool) (key : A -> K).

Fixpoint insert_sorted (x : A) (l : list A) : list A :=
  match l with
  | [] => [x]
  | y :: l' => if lt (key y) (key x) then y :: insert_sorted x l' else x :: l
  end.

Fixpoint sorted (l : list A) : list A :=
  match l with
  | [] => []
  | x :: l' => insert_sorted x (sorted l')
  end.

(** [x] may stand before [y] in a sorted list: the key of [y] is not below
    the key of [x]. *)
Definition sorted_le (x y : A) : Prop := lt (key y) (key x) = false.
End PySorted.

(** [a < b] on the tuples [(ext_rank(s), s.lower())]. *)
Definition key_lt (a b : Z * string) : bool :=
  (a.1 <? b.1)%Z || ((a.1 =? b.1)%Z && String.ltb a.2 b.2).

Definition has_hint (hint_substrings : list string) (n : string) : bool :=
  let ln := Str.lower n in
  existsb (fun h => Str.contains ln h) hint_substrings.

Definition ext_rank (exts_priority : list string) (n : string) : Z :=
  let ext := PurePath.suffix (Str.lower n) in
  match Str.index ext exts_priority with
  | Some i => i
  | None => 999
  end.

(** The [candidates] list of [choose_member_by_ext]. *)
Definition candidates (z : ZipFile) (prefixes exts_priority : list string) : list string :=
  let names :=
    List.filter (fun n => negb (String.eqb n "") && negb (Str.endswith n "/")) (namelist z) in
  List.filter
    (fun n =>
       let ln := Str.lower n in
       existsb (fun p => Str.startswith ln p) prefixes
       && Str.mem (PurePath.suffix ln) exts_priority)
    names.

(** The [hinted] list of [choose_member_by_ext]. *)
Definition hinted (z : ZipFile) (prefixes exts_priority hint_substrings : list string)
  : list string :=
  List.filter
    (fun n => match hint_substrings with [] => false | _ => has_hint hint_substrings n end)
    (candidates z prefixes exts_priority).

(** [pool = hinted if hinted else candidates] *)
Definition pool (z : ZipFile) (prefixes exts_priority hint_substrings : list string)
  : list string :=
  match hinted z prefixes exts_priority hint_substrings with
  | [] => candidates z prefixes exts_priority
  | _ :: _ => hinted z prefixes exts_priority hint_substrings
  end.

(** The sort key [(ext_rank(s), s.lower())]. *)
Definition sort_key (exts_priority : list string) (s : string) : Z * string :=
  (ext_rank exts_priority s, str_lower s).

Definition choose_member_by_ext (z : ZipFile)
    (prefixes exts_priority hint_substrings : list string) : option string :=
  match candidates z prefixes exts_priority with
  | [] => None
  | _ :: _ =>
      let pool_sorted :=
        sorted key_lt (sort_key exts_priority)
               (pool z prefixes exts_priority hint_substrings) in
      head pool_sorted
  end.

Definition IMG_EXTS : list string := [".jpg"; ".jpeg"; ".png"; ".webp"].

Definition find_cover_member (z : ZipFile) : option string :=
  let names := names_of z in
  let preferred :=
    ["metadata/cover.png"; "metadata/cover.jpg"; "metadata/cover.jpeg"; "metadata/cover.webp";
     "cover.png"; "cover.jpg"; "cover.jpeg"; "cover.webp"] in
  match List.find (fun p => bool_decide (p ∈ names)) preferred with
  | Some p => Some p
  | None =>
      List.find
        (fun n =>
           let ln := Str.lower n in
           existsb (Str.endswith ln) IMG_EXTS
           && (negb (Str.contains ln "/") || Str.startswith ln "metadata/"))
        (namelist z)
  end.

Definition find_declaration_member_anyname (z : ZipFile) : option string :=
  choose_member_by_ext z ["metadata/"] [".pdf"; ".txt"]
    ["declar"; "legal"; "license"; "statement"].

Definition find_prompt_member_anyname (z : ZipFile) : option string :=
  choose_member_by_ext z ["metadata/"] [".txt"]
    ["prompt"; "suno"; "udio"; "instruction"].

Definition find_lyrics_member_anyname (z : ZipFile) : option string :=
  choose_member_by_ext z ["metadata/"] [".txt"]
    ["lyric"; "lyrics"; "words"; "verse"].

Definition pick_asset_member (z : ZipFile) (kind : string) : option string :=
  let kind := Str.strip (str_lower kind) in
  if String.eqb kind "cover" then find_cover_member z
  else if String.eqb kind "declaration" then find_declaration_member_anyname z
  else if String.eqb kind "prompt" then find_prompt_member_anyname z
  else if String.eqb kind "lyrics" then find_lyrics_member_anyname z
  else if String.eqb kind "manifest" then
    if bool_decide ("manifest.json" ∈ names_of z) then Some "manifest.json" else None
  else None.

(** *** Core state *)

Record Fields : Type := {
  author : string;
  ai_system : string;
  tier : string;
  mode : string;
  origin_url : string
}.

(** [info["verify"]]; [verify_ok] is its ["ok"] entry. *)
Record Verify : Type := {
  verify_ok : bool;
  status : string;
  details : list dict;
  available : bool;
  engine : string
}.

Record Asset : Type := {
  asset_exists : bool;
  member : string;
  ext : string
}.

Record Assets : Type := {
  cover : Asset;
  declaration : Asset;
  prompt : Asset;
  lyrics : Asset;
  manifest : Asset
}.

Record Info : Type := {
  fields : Fields;
  verify : Verify;
  assets : Assets
}.

(** [class PaionState], without the cache of extracted audio files. *)
Record PaionState : Type := {
  tracks : list Path;
  playlist_version : Z;
  info_cache : gmap Path Info
}.

Definition load_tracks (self : PaionState) (new_tracks : list Path) : PaionState :=
  {| tracks := new_tracks;
     playlist_version := playlist_version self + 1;
     info_cache := ∅ |}.

Definition clear (self : PaionState) : PaionState :=
  {| tracks := [];
     playlist_version := playlist_version self + 1;
     info_cache := ∅ |}.

Definition read_manifest_from_aifm (aifm_path : Path) : result value :=
  z <- ZipFile_open aifm_path ;;
  if negb (bool_decide ("manifest.json" ∈ namelist z)) then Ok (VDict [])
  else
    raw <- read z "manifest.json" ;;
    json_loads raw.

(** [x1 or x2 or ... or last] *)
Fixpoint or_chain (xs : list value) (last : value) : value :=
  match xs with
  | [] => last
  | x :: xs' => if truthy x then x else or_chain xs' last
  end.

Definition author_value (m : value) : value :=
  or_chain [safe_get m "creator.name" VNone; safe_get m "author" VNone] (VStr "—").

Definition ai_system_value (m : value) : value :=
  or_chain [safe_get m "origin.ai_platform" VNone; safe_get m "ai.system" VNone;
            safe_get m "ai_system" VNone] (VStr "—").

Definition tier_value (m : value) : value :=
  or_chain [safe_get m "verification.tier" VNone; safe_get m "tier" VNone] (VStr "—").

Definition mode_value (m : value) : value :=
  or_chain [safe_get m "mode" VNone; safe_get m "aifx.governance.mode" VNone] (VStr "—").

Definition origin_url_value (m : value) : value :=
  or_chain [safe_get m "origin.primary_url" VNone; safe_get m "origin_url" VNone;
            safe_get m "origin.url" VNone] (VStr "").

(** [str(v) if v else placeholder] *)
Definition str_or (v : value) (placeholder : string) : string :=
  if truthy v then py_str v else placeholder.

Definition track_fields (m : value) : Fields :=
  {| author := str_or (author_value m) "—";
     ai_system := str_or (ai_system_value m) "—";
     tier := str_or (tier_value m) "—";
     mode := str_or (mode_value m) "—";
     origin_url := str_or (origin_url_value m) "" |}.

(** One iteration of [for k in ("cover", ..., "manifest")]: the asset entry
    of kind [k], [default] when no member is picked. *)
Definition track_asset (z : ZipFile) (k : string) (default : Asset) : Asset :=
  match pick_asset_member z k with
  | Some m =>
      if String.eqb m "" then default
      else {| asset_exists := true;
              member := m;
              ext := if String.eqb k "manifest" then "json"
                     else Str.lower (Str.lstrip_dot (PurePath.suffix m)) |}
  | None => default
  end.

Definition no_asset (e : string) : Asset :=
  {| asset_exists := false; member := ""; ext := e |}.

Definition default_assets : Assets :=
  {| cover := no_asset ""; declaration := no_asset ""; prompt := no_asset "";
     lyrics := no_asset ""; manifest := no_asset "json" |}.

Definition track_assets (aifm_path : Path) : Assets :=
  match ZipFile_open aifm_path with
  | Ok z =>
      {| cover := track_asset z "cover" (cover default_assets);
         declaration := track_asset z "declaration" (declaration default_assets);
         prompt := track_asset z "prompt" (prompt default_assets);
         lyrics := track_asset z "lyrics" (lyrics default_assets);
         manifest := track_asset z "manifest" (manifest default_assets) |}
  | Raise _ => default_assets
  end.

(** [getattr(r, name, default)] *)
Definition getattr (a : option value) (default : value) : value :=
  match a with
  | Some v => v
  | None => default
  end.

Definition detail (ok_ : bool) (path_ reason_ : string) : dict :=
  [("ok", VBool ok_); ("path", VStr path_); ("reason", VStr reason_)].

(** The [try] block of the [VERIFY_FN is not None] branch. *)
Definition external_verify_try (verify_fn : Path -> result (value * list CheckObject))
    (aifm_path : Path) : result Verify :=
  r <- verify_fn aifm_path ;;
  let '(ok_, results) := r in
  let details :=
    map (fun r =>
           detail (truthy (getattr (attr_ok r) (VBool false)))
                  (py_str (getattr (attr_path r) (VStr "")))
                  (if truthy (getattr (attr_reason r) (VStr ""))
                   then py_str (getattr (attr_reason r) (VStr "")) else ""))
        results in
  let '(norm_ok, status_, _) := normalize_verify details (truthy ok_) in
  Ok {| verify_ok := norm_ok; status := status_; details := details;
        available := true; engine := "verify_aifm.py" |}.

(** The value [get_track_info] leaves in [info["verify"]]: the initial
    [UNKNOWN] entry is overwritten on both branches. *)
Definition track_verify (aifm_path : Path) : Verify :=
  match VERIFY_FN with
  | Some verify_fn =>
      match external_verify_try verify_fn aifm_path with
      | Ok v => v
      | Raise e =>
          {| verify_ok := false; status := "ERROR";
             details := [detail false "verify_aifm.py" e];
             available := true; engine := "verify_aifm.py" |}
      end
  | None =>
      let '(ok_, checks_) := builtin_verify_aifm aifm_path in
      let details := map (fun c => detail (ok c) (path c) (reason c)) checks_ in
      let '(norm_ok, status_, _) := normalize_verify details ok_ in
      {| verify_ok := norm_ok; status := status_; details := details;
         available := true; engine := "builtin" |}
  end.

(** [PaionState.get_track_info]: the descriptor, and the state with the
    descriptor cached. *)
Definition get_track_info (self : PaionState) (aifm_path : Path) : Info * PaionState :=
  match info_cache self !! aifm_path with
  | Some info => (info, self)
  | None =>
      let manifest_ :=
        match read_manifest_from_aifm aifm_path with
        | Ok m => m
        | Raise _ => VDict []
        end in
      let info :=
        {| fields := track_fields manifest_;
           assets := track_assets aifm_path;
           verify := track_verify aifm_path |} in
      (info, {| tracks := tracks self;
                playlist_version := playlist_version self;
                info_cache := <[aifm_path := info]> (info_cache self) |})
  end.

(** *** The web layer *)

Definition clamp (n lo hi : Z) : Z := Z.max lo (Z.min hi n).

Definition guess_mimetype (filename : string) : string :=
  let suf := Str.lower (PurePath.suffix filename) in
  if Str.mem suf [".jpg"; ".jpeg"] then "image/jpeg"
  else if String.eqb suf ".png" then "image/png"
  else if String.eqb suf ".webp" then "image/webp"
  else if String.eqb suf ".pdf" then "application/pdf"
  else if String.eqb suf ".txt" then "text/plain; charset=utf-8"
  else if String.eqb suf ".json" then "application/json; charset=utf-8"
  else if Str.mem suf [".mp3"] then "audio/mpeg"
  else if Str.mem suf [".wav"] then "audio/wav"
  else if Str.mem suf [".m4a"; ".aac"] then "audio/mp4"
  else if Str.mem suf [".flac"] then "audio/flac"
  else if Str.mem suf [".ogg"] then "audio/ogg"
  else "application/octet-stream".

(** [l[i]] on a Python list: a negative index counts from the end, and an
    index outside the list raises [IndexError]. *)
Definition list_getitem {A : Type} (l : list A) (i : Z) : result A :=
  let n := Z.of_nat (length l) in
  let j := if (i <? 0)%Z then i + n else i in
  if (0 <=? j)%Z && (j <? n)%Z then
    match nth_error l (Z.to_nat j) with
    | Some x => Ok x
    | None => Raise "list index out of range"
    end
  else Raise "list index out of range".

(** What a route of [create_app] answers. *)
Inductive Response : Type :=
| NotFound
| NoTracks
| TrackInfo (info : Info)
| SendFile (data : bytes) (mimetype download_name : string).

(** [if not state.tracks: ...; index = clamp(index, 0, len(state.tracks) - 1);
    aifm = state.tracks[index]], shared by the routes: [None] when there is
    no track. *)
Definition route_track (state : PaionState) (index : Z) : result (option Path) :=
  match tracks state with
  | [] => Ok None
  | _ :: _ =>
      let index := clamp index 0 (Z.of_nat (length (tracks state)) - 1) in
      aifm <- list_getitem (tracks state) index ;;
      Ok (Some aifm)
  end.

(** [/api/track_info/<int:index>]: [jsonify(info)], or the 404 answer
    [{"error": "no tracks"}]. *)
Definition api_track_info (state : PaionState) (index : Z)
  : result (Response * PaionState) :=
  t <- route_track state index ;;
  match t with
  | None => Ok (NoTracks, state)
  | Some aifm =>
      let '(info, state') := get_track_info state aifm in
      Ok (TrackInfo info, state')
  end.

(** The [try] block of [api_cover] and [api_asset]: read the member and send
    it ([send_file] is taken to succeed). *)
Definition send_member (aifm : Path) (member_ : string) : result Response :=
  z <- ZipFile_open aifm ;;
  data <- read z member_ ;;
  Ok (SendFile data (guess_mimetype member_) (PurePath.name member_)).

(** [/api/cover/<int:index>] *)
Definition api_cover (state : PaionState) (index : Z) : result (Response * PaionState) :=
  t <- route_track state index ;;
  match t with
  | None => Ok (NotFound, state)
  | Some aifm =>
      let '(info, state') := get_track_info state aifm in
      let member_ := member (cover (assets info)) in
      if String.eqb member_ "" then Ok (NotFound, state')
      else
        match send_member aifm member_ with
        | Ok r => Ok (r, state')
        | Raise _ => Ok (NotFound, state')
        end
  end.

(** [info.get("assets", {}).get(kind, {})] for one of the four kinds that
    [api_asset] lets through. *)
Definition asset_of_kind (a : Assets) (kind : string) : Asset :=
  if String.eqb kind "declaration" then declaration a
  else if String.eqb kind "prompt" then prompt a
  else if String.eqb kind "lyrics" then lyrics a
  else manifest a.

(** [/api/asset/<int:index>/<kind>] *)
Definition api_asset (state : PaionState) (index : Z) (kind : string)
  : result (Response * PaionState) :=
  match tracks state with
  | [] => Ok (NotFound, state)
  | _ :: _ =>
      let kind := Str.strip (str_lower kind) in
      if negb (Str.mem kind ["declaration"; "prompt"; "lyrics"; "manifest"]) then
        Ok (NotFound, state)
      else
        t <- route_track state index ;;
        match t with
        | None => Ok (NotFound, state)
        | Some aifm =>
            let '(info, state') := get_track_info state aifm in
            let member_ := member (asset_of_kind (assets info) kind) in
            if String.eqb member_ "" then Ok (NotFound, state')
            else
              match send_member aifm member_ with
              | Ok r => Ok (r, state')
              | Raise _ => Ok (NotFound, state')
              end
        end
  end.

(** *** Notions the properties are stated with *)

(** The lookup pattern of the five metadata fields of [get_track_info]:
    [safe_get(manifest, p1) or safe_get(manifest, p2) or ... or default]. *)
Definition lookup (m : value) (candidate_paths : list string) (default : value) : value :=
  or_chain (map (fun p => safe_get m p VNone) candidate_paths) default.

(** The lookup as the specification words it (section 4.2): "returns the
    first candidate that resolves to a non-null value, else default". *)
Fixpoint spec_lookup (m : value) (candidate_paths : list string) (default : value) : value :=
  match candidate_paths with
  | [] => default
  | p :: ps =>
      match safe_get m p VNone with
      | VNone => spec_lookup m ps default
      | v => v
      end
  end.

(** What appending the check [c] does to the loop variables: the check joins
    the list, and a failing one raises the flag of its kind. *)
Definition push_check (st : verify_state) (c : BuiltinCheck) : verify_state :=
  {| non_manifest_failed :=
       non_manifest_failed st || (negb (ok c) && negb (String.eqb (path c) "manifest.json"));
     manifest_failed :=
       manifest_failed st || (negb (ok c) && String.eqb (path c) "manifest.json");
     checks := checks st ++ [c] |}.

(** [hashed_files] is missing from the integrity mapping, is not a mapping,
    or is empty. *)
Definition hashed_files_unusable (integ : dict) : Prop :=
  dict_lookup integ "hashed_files" = None
  \/ (exists v, dict_lookup integ "hashed_files" = Some v /\ isinstance_dict v = false)
  \/ dict_lookup integ "hashed_files" = Some (VDict []).


(** The members [choose_member_by_ext] selects from, in words: a member of
    the archive that is not a directory entry, whose lower-cased path starts
    with one of the prefixes and whose extension is in the priority list. *)
Definition is_candidate (z : ZipFile) (prefixes exts_priority : list string) (n : string)
  : Prop :=
  In n (namelist z)
  /\ n <> ""
  /\ Str.endswith n "/" = false
  /\ (exists p, In p prefixes /\ Str.startswith (Str.lower n) p = true)
  /\ In (PurePath.suffix (Str.lower n)) exts_priority.

(** The lower-cased path of [n] contains one of the hint substrings. *)
Definition is_hinted (hint_substrings : list string) (n : string) : Prop :=
  exists h, In h hint_substrings /\ Str.contains (Str.lower n) h = true.

(** The order of the sort, in words: a smaller extension rank first, and
    for equal ranks the lower-cased paths in ascending order. *)
Definition rank_then_name (exts_priority : list string) (x y : string) : Prop :=
  ext_rank exts_priority x < ext_rank exts_priority y
  \/ (ext_rank exts_priority x = ext_rank exts_priority y
      /\ String.le (str_lower x) (str_lower y)).

Definition declaration_exts : list string := [".pdf"; ".txt"].
Definition declaration_hints : list string := ["declar"; "legal"; "license"; "statement"].

(** An invariant of the loop: the non-manifest flag is up only together
    with a failing check. *)
Definition flag_has_check (st : verify_state) : Prop :=
  non_manifest_failed st = true -> Exists (fun c => ok c = false) (checks st).

(** A state of the player in which nothing is cached. *)
Definition fresh_state : PaionState :=
  {| tracks := []; playlist_version := 0; info_cache := ∅ |}.

(** Every cached descriptor is the one a fresh computation gives. *)
Definition cache_valid (self : PaionState) : Prop :=
  forall aifm_path info,
    info_cache self !! aifm_path = Some info ->
    info = (get_track_info fresh_state aifm_path).1.

(** The declared entry [item] matches the archive: its member is in the
    archive and can be read, its size, when an integer is declared, is the
    number of bytes read, and its digest, when a non-empty one is declared,
    is the lower-case digest of the bytes. *)
Definition entry_matches (z : ZipFile) (item : string * value) : Prop :=
  item.1 ∈ namelist z
  /\ exists data,
       read z item.1 = Ok data
       /\ (isinstance_int (expected_bytes_of item.2) = true ->
           int_ne (Z.of_nat (length data)) (expected_bytes_of item.2) = false)
       /\ (expected_hash_of item.2 <> "" ->
           Str.lower (sha256_hexdigest data) = expected_hash_of item.2).

(** The check of an entry that passes. *)
Definition passed_check (item : string * value) : BuiltinCheck :=
  {| ok := true; path := item.1; reason := "" |}.

(** The mapping that holds [v] under the nested keys [parts]. *)
Fixpoint nest (parts : list string) (v : value) : value :=
  match parts with
  | [] => v
  | k :: ks => VDict [(k, nest ks v)]
  end.

(** [".".join(parts)] *)
Fixpoint join_dots (parts : list string) : string :=
  match parts with
  | [] => ""
  | [k] => k
  | k :: ks => k +:+ "." +:+ join_dots ks
  end.

(** The key has no dot in it. *)
Fixpoint dotless (k : string) : bool :=
  match k with
  | EmptyString => true
  | String c k' => negb (Ascii.eqb c ".") && dotless k'
  end.

(** The fields of a track whose manifest gives nothing. *)
Definition placeholder_fields : Fields :=
  {| author := "—"; ai_system := "—"; tier := "—"; mode := "—"; origin_url := "" |}.

(** The outcome depends on the checks through two facts only: whether a
    check fails, and whether a failing check has a path other than
    [manifest.json]. *)
Definition any_failure (details : list dict) : bool := existsb detail_fails details.

Definition any_non_manifest_failure (details : list dict) : bool :=
  existsb (fun d => detail_fails d && negb (String.eqb (detail_path d) "manifest.json")) details.

(** The exact paths [find_cover_member] prefers, in order. *)
Definition preferred_covers : list string :=
  ["metadata/cover.png"; "metadata/cover.jpg"; "metadata/cover.jpeg"; "metadata/cover.webp";
   "cover.png"; "cover.jpg"; "cover.jpeg"; "cover.webp"].

(** The fallback test of [find_cover_member]: an image extension, at top
    level or under [metadata/], the case of the letters set aside. *)
Definition cover_fallback (n : string) : bool :=
  let ln := Str.lower n in
  existsb (Str.endswith ln) IMG_EXTS
  && (negb (Str.contains ln "/") || Str.startswith ln "metadata/").

(** The manifest of the container gives nothing: the archive does not open,
    it has no [manifest.json], the member cannot be read or parsed, or what
    is parsed is not a mapping or is the empty mapping. *)
Definition manifest_unusable (aifm_path : Path) : Prop :=
  match ZipFile_open aifm_path with
  | Raise _ => True
  | Ok z =>
      "manifest.json" ∉ namelist z
      \/ match read z "manifest.json" with
         | Raise _ => True
         | Ok raw =>
             match json_loads raw with
             | Raise _ => True
             | Ok m => isinstance_dict m = false \/ m = VDict []
             end
         end
  end.

(** ** Properties *)

(** *** Normalization *)

Lemma filter_nil_iff {A : Type} (f : A -> bool) (l : list A) :
  List.filter f l = [] <-> forall x, In x l -> f x = false.
Proof.
  split.
  - intros Hnil x Hx. destruct (f x) eqn:Hfx; [|reflexivity].
    assert (In x (List.filter f l)) as Hin by (apply filter_In; auto).
    rewrite Hnil in Hin. destruct Hin.
  - intros Hall. induction l as [|a l IH]; simpl; [reflexivity|].
    rewrite (Hall a) by (left; reflexivity).
    apply IH. intros x Hx. apply Hall. right. exact Hx.
Qed.

Lemma filter_cons_of_In {A : Type} (f : A -> bool) (l : list A) (x : A) :
  In x l -> f x = true -> exists y ys, List.filter f l = y :: ys.
Proof.
  intros Hx Hfx. destruct (List.filter f l) as [|y ys] eqn:E; [|eauto].
  assert (In x (List.filter f l)) as Hin by (apply filter_In; auto).
  rewrite E in Hin. destruct Hin.
Qed.

Lemma normalize_no_fail (details : list dict) (original_ok : bool) :
  (forall d, In d details -> detail_fails d = false) ->
  normalize_verify details original_ok
  = (original_ok, if original_ok then "INTACT" else "TAMPERED", false).
Proof.
  intros Hall. unfold normalize_verify.
  apply filter_nil_iff in Hall. rewrite Hall. reflexivity.
Qed.

Lemma normalize_non_manifest_fail (details : list dict) (original_ok : bool) (d : dict) :
  In d details -> detail_fails d = true -> detail_path d <> "manifest.json" ->
  normalize_verify details original_ok = (false, "TAMPERED", false).
Proof.
  intros Hd Hfail Hpath. unfold normalize_verify.
  destruct (filter_cons_of_In detail_fails details d Hd Hfail) as (y & ys & E).
  rewrite E.
  assert (In d (y :: ys)) as Hin by (rewrite <- E; apply filter_In; auto).
  destruct (filter_cons_of_In
              (fun f => negb (String.eqb (detail_path f) "manifest.json")) (y :: ys) d Hin)
    as (y' & ys' & E').
  { apply negb_true_iff, String.eqb_neq. exact Hpath. }
  rewrite E'. reflexivity.
Qed.

Lemma normalize_manifest_only (details : list dict) (original_ok : bool) (d : dict) :
  In d details -> detail_fails d = true ->
  (forall f, In f details -> detail_fails f = true -> detail_path f = "manifest.json") ->
  normalize_verify details original_ok = (true, "INTACT (MANIFEST WARN)", true).
Proof.
  intros Hd Hfail Hall. unfold normalize_verify.
  destruct (filter_cons_of_In detail_fails details d Hd Hfail) as (y & ys & E).
  rewrite E.
  assert (forall f, In f (y :: ys) -> detail_path f = "manifest.json") as Hpaths.
  { intros f Hf. rewrite <- E in Hf. apply filter_In in Hf as [Hf1 Hf2]. auto. }
  assert (List.filter (fun f => negb (String.eqb (detail_path f) "manifest.json")) (y :: ys) = [])
    as ->.
  { apply filter_nil_iff. intros f Hf. rewrite (Hpaths f Hf). reflexivity. }
  assert (In d (y :: ys)) as Hin by (rewrite <- E; apply filter_In; auto).
  destruct (filter_cons_of_In
              (fun f => String.eqb (detail_path f) "manifest.json") (y :: ys) d Hin)
    as (y' & ys' & E').
  { rewrite (Hpaths d Hin). reflexivity. }
  rewrite E'. reflexivity.
Qed.

(** *** The loop of the built-in verifier *)

Lemma append_check_push (st : verify_state) (relpath : string) :
  append_check st {| ok := true; path := relpath; reason := "" |}
  = push_check st {| ok := true; path := relpath; reason := "" |}.
Proof.
  unfold append_check, push_check. simpl.
  rewrite !orb_false_r. reflexivity.
Qed.

Lemma record_fail_push (st : verify_state) (relpath why : string) :
  record_fail st relpath why
  = push_check st {| ok := false; path := relpath; reason := why |}.
Proof.
  unfold record_fail, append_check, push_check. simpl.
  destruct (String.eqb relpath "manifest.json"); simpl;
    rewrite ?orb_false_r, ?orb_true_r; reflexivity.
Qed.

(** Case analysis on the tests of one iteration of the loop. *)
Ltac entry_cases :=
  unfold verify_entry;
  repeat match goal with
         | |- context [negb (bool_decide ?P)] => destruct (bool_decide P) eqn:?; simpl
         | |- context [bind (read ?z ?n) _] => destruct (read z n) eqn:?; simpl
         | |- context [if ?b && ?c then _ else _] => destruct (b && c) eqn:?; simpl
         end.

(** An iteration appends exactly one check, for the entry's own path, and
    which check it is does not depend on the state left by the entries
    before. *)
Lemma verify_entry_push (z : ZipFile) (names : gset string) (st st' : verify_state)
    (relpath : string) (meta : value) :
  verify_entry z names st relpath meta = Ok st' ->
  exists c, path c = relpath /\ st' = push_check st c /\
            forall st2, verify_entry z names st2 relpath meta = Ok (push_check st2 c).
Proof.
  revert st'. entry_cases; intros st' [= <-]; eexists;
    (split; [|split; [first [apply record_fail_push | apply append_check_push]
                     |intros st2; first [rewrite record_fail_push | rewrite append_check_push];
                      reflexivity]]);
    reflexivity.
Qed.

(** An iteration raises only when reading a member that is in the archive
    raises. *)
Lemma verify_entry_readable (z : ZipFile) (names : gset string) (st : verify_state)
    (relpath : string) (meta : value) :
  (relpath ∈ names -> exists data, read z relpath = Ok data) ->
  exists st', verify_entry z names st relpath meta = Ok st'.
Proof.
  intros Hread. entry_cases; eauto.
  match goal with H : bool_decide _ = true |- _ => apply bool_decide_eq_true in H; rename H into Hin end.
  destruct (Hread Hin) as [data Hdata]. congruence.
Qed.

Lemma verify_entries_push (z : ZipFile) (names : gset string) (items : dict) :
  (forall relpath meta, In (relpath, meta) items -> relpath ∈ names ->
                        exists data, read z relpath = Ok data) ->
  forall st, exists cs,
    verify_entries z names items st = Ok (fold_left push_check cs st) /\
    Forall2 (fun item c =>
               path c = item.1 /\
               forall st2, verify_entry z names st2 item.1 item.2 = Ok (push_check st2 c))
            items cs.
Proof.
  induction items as [|[relpath meta] items IH]; intros Hread st.
  - exists []. split; [reflexivity|constructor].
  - destruct (verify_entry_readable z names st relpath meta) as [st' Hst'].
    { apply (Hread relpath meta). left. reflexivity. }
    destruct (verify_entry_push _ _ _ _ _ _ Hst') as (c & Hpath & -> & Hany).
    destruct (IH (fun r m Hin => Hread r m (or_intror Hin)) (push_check st c)) as (cs & Hrun & Hall).
    exists (c :: cs). split.
    + simpl. rewrite Hst'. simpl. exact Hrun.
    + constructor; [split; assumption | exact Hall].
Qed.

Lemma checks_fold_push (cs : list BuiltinCheck) (st : verify_state) :
  checks (fold_left push_check cs st) = checks st ++ cs.
Proof.
  revert st. induction cs as [|c cs IH]; intros st; simpl.
  - rewrite app_nil_r. reflexivity.
  - rewrite IH. simpl. rewrite <- app_assoc. reflexivity.
Qed.

Lemma push_check_flag (st : verify_state) (c : BuiltinCheck) :
  flag_has_check st -> flag_has_check (push_check st c).
Proof.
  unfold flag_has_check, push_check. simpl. intros Hst Hflag.
  apply Exists_app.
  destruct (non_manifest_failed st); [left; auto|right].
  simpl in Hflag. apply andb_true_iff in Hflag as [Hok _].
  constructor. apply negb_true_iff. exact Hok.
Qed.

Lemma verify_entries_flag (z : ZipFile) (names : gset string) (items : dict) :
  forall st st', flag_has_check st -> verify_entries z names items st = Ok st' ->
                 flag_has_check st'.
Proof.
  induction items as [|[relpath meta] items IH]; intros st st' Hst; simpl.
  - intros [= <-]. exact Hst.
  - destruct (verify_entry z names st relpath meta) as [st1|e] eqn:E; simpl; [|discriminate].
    destruct (verify_entry_push _ _ _ _ _ _ E) as (c & _ & -> & _).
    apply IH. apply push_check_flag. exact Hst.
Qed.

(** *** The built-in verifier *)

Lemma in_names (z : ZipFile) (n : string) : n ∈ names_of z <-> n ∈ namelist z.
Proof. apply elem_of_list_to_set. Qed.

(** Runs the [try] block up to the parsed manifest. *)
Ltac enter_try Hopen Hin Hread Hparse :=
  unfold builtin_verify_aifm, builtin_verify_try;
  rewrite Hopen; cbn [bind];
  rewrite (bool_decide_eq_true_2 _ (proj2 (in_names _ _) Hin)); cbn [negb];
  rewrite Hread; cbn [bind];
  rewrite Hparse; cbn [bind].

Lemma builtin_missing_manifest (aifm_path : Path) (z : ZipFile) :
  ZipFile_open aifm_path = Ok z ->
  "manifest.json" ∉ namelist z ->
  builtin_verify_aifm aifm_path
  = (false, [{| ok := false; path := "manifest.json"; reason := "missing manifest.json" |}]).
Proof.
  intros Hopen Hnotin. unfold builtin_verify_aifm, builtin_verify_try.
  rewrite Hopen. cbn [bind].
  rewrite bool_decide_eq_false_2; [reflexivity|].
  rewrite in_names. exact Hnotin.
Qed.

Lemma builtin_unsupported_algorithm (aifm_path : Path) (z : ZipFile) (raw : bytes)
    (m : value) (integ : dict) :
  ZipFile_open aifm_path = Ok z ->
  "manifest.json" ∈ namelist z ->
  read z "manifest.json" = Ok raw ->
  json_loads raw = Ok m ->
  manifest_integrity m = VDict integ ->
  Str.lower (py_str (dict_get integ "algorithm" (VStr "sha256"))) <> "sha256" ->
  builtin_verify_aifm aifm_path
  = (false, [{| ok := false; path := "integrity.algorithm";
                reason := "unsupported algorithm: "
                          +:+ py_str (dict_get integ "algorithm" (VStr "sha256")) |}]).
Proof.
  intros Hopen Hin Hread Hparse Hinteg Halgo.
  enter_try Hopen Hin Hread Hparse. rewrite Hinteg. cbn [attr_get bind].
  apply String.eqb_neq in Halgo. rewrite Halgo. reflexivity.
Qed.

Lemma builtin_unusable_hashed_files (aifm_path : Path) (z : ZipFile) (raw : bytes)
    (m : value) (integ : dict) :
  ZipFile_open aifm_path = Ok z ->
  "manifest.json" ∈ namelist z ->
  read z "manifest.json" = Ok raw ->
  json_loads raw = Ok m ->
  manifest_integrity m = VDict integ ->
  Str.lower (py_str (dict_get integ "algorithm" (VStr "sha256"))) = "sha256" ->
  hashed_files_unusable integ ->
  builtin_verify_aifm aifm_path
  = (false, [{| ok := false; path := "integrity.hashed_files";
                reason := "missing/empty hashed_files" |}]).
Proof.
  intros Hopen Hin Hread Hparse Hinteg Halgo Hhf.
  enter_try Hopen Hin Hread Hparse. rewrite Hinteg. cbn [attr_get bind].
  rewrite Halgo. cbn [String.eqb Ascii.eqb Bool.eqb negb].
  unfold dict_get at 1.
  destruct Hhf as [-> | [(v & -> & Hv) | ->]]; [reflexivity| |reflexivity].
  destruct v; try reflexivity. discriminate Hv.
Qed.


(** C3. Each integrity precondition failure makes the built-in verifier
    return exactly one check and run no per-file check.  In an archive that
    opens: when [manifest.json] is not a member, the single check is
    [manifest.json / missing manifest.json]; when the manifest parses, its
    integrity block is a mapping and the algorithm it names is not
    [sha256] up to case, the single check is [integrity.algorithm /
    unsupported algorithm: <value>]; when the algorithm is absent or is
    [sha256] up to case and [hashed_files] is missing, not a mapping or
    empty, the single check is [integrity.hashed_files / missing/empty
    hashed_files]. *)
Theorem precondition_failure_single_check (aifm_path : Path) (z : ZipFile) :
  ZipFile_open aifm_path = Ok z ->
  ("manifest.json" ∉ namelist z ->
   builtin_verify_aifm aifm_path
   = (false, [{| ok := false; path := "manifest.json"; reason := "missing manifest.json" |}]))
  /\
  (forall raw m integ,
      "manifest.json" ∈ namelist z ->
      read z "manifest.json" = Ok raw ->
      json_loads raw = Ok m ->
      manifest_integrity m = VDict integ ->
      (forall algo,
          dict_lookup integ "algorithm" = Some algo ->
          Str.lower (py_str algo) <> "sha256" ->
          builtin_verify_aifm aifm_path
          = (false, [{| ok := false; path := "integrity.algorithm";
                        reason := "unsupported algorithm: " +:+ py_str algo |}]))
      /\
      ((dict_lookup integ "algorithm" = None
        \/ exists algo, dict_lookup integ "algorithm" = Some algo
                        /\ Str.lower (py_str algo) = "sha256") ->
       hashed_files_unusable integ ->
       builtin_verify_aifm aifm_path
       = (false, [{| ok := false; path := "integrity.hashed_files";
                     reason := "missing/empty hashed_files" |}]))).
Proof.
  intros Hopen. split.
  - apply builtin_missing_manifest. exact Hopen.
  - intros raw m integ Hin Hread Hparse Hinteg. split.
    + intros algo Halgo Hne.
      rewrite (builtin_unsupported_algorithm _ _ _ _ _ Hopen Hin Hread Hparse Hinteg);
        unfold dict_get; rewrite Halgo; [reflexivity | exact Hne].
    + intros Halgo Hhf.
      apply (builtin_unusable_hashed_files _ _ _ _ _ Hopen Hin Hread Hparse Hinteg);
        [|exact Hhf].
      unfold dict_get. destruct Halgo as [-> | (algo & -> & Hlow)]; [reflexivity | exact Hlow].
Qed.

(** C2. When the integrity preconditions hold (the manifest is a member and
    parses, the algorithm is [sha256] up to case, [hashed_files] is a
    non-empty mapping) and every declared member that is in the archive can
    be read, the built-in verifier returns exactly one check per declared
    entry, in the order of the mapping: the i-th check carries the path of
    the i-th entry and is the check the loop body appends for that entry
    from any state, so an earlier failure neither stops the loop nor changes
    the checks of the entries after it. *)
Theorem builtin_checks_every_entry (aifm_path : Path) (z : ZipFile) (raw : bytes)
    (m : value) (integ items : dict) :
  ZipFile_open aifm_path = Ok z ->
  "manifest.json" ∈ namelist z ->
  read z "manifest.json" = Ok raw ->
  json_loads raw = Ok m ->
  manifest_integrity m = VDict integ ->
  Str.lower (py_str (dict_get integ "algorithm" (VStr "sha256"))) = "sha256" ->
  dict_lookup integ "hashed_files" = Some (VDict items) ->
  items <> [] ->
  (forall relpath meta, In (relpath, meta) items -> relpath ∈ namelist z ->
                        exists data, read z relpath = Ok data) ->
  exists cs,
    (builtin_verify_aifm aifm_path).2 = cs
    /\ length cs = length items
    /\ map path cs = map fst items
    /\ Forall2 (fun item c =>
                  forall st, exists st',
                    verify_entry z (names_of z) st item.1 item.2 = Ok st'
                    /\ checks st' = checks st ++ [c])
               items cs.
Proof.
  intros Hopen Hin Hread Hparse Hinteg Halgo Hhf Hne Hreadable.
  destruct (verify_entries_push z (names_of z) items) with (st := initial_state)
    as (cs & Hrun & Hall).
  { intros relpath meta Hitem Hmem. apply (Hreadable relpath meta Hitem).
    apply in_names. exact Hmem. }
  exists cs.
  assert ((builtin_verify_aifm aifm_path).2 = cs) as Hcs.
  { enter_try Hopen Hin Hread Hparse. rewrite Hinteg. cbn [attr_get bind].
    rewrite Halgo. cbn [String.eqb Ascii.eqb Bool.eqb negb].
    unfold dict_get at 1. rewrite Hhf.
    destruct items as [|item items']; [contradiction|].
    cbv beta iota. rewrite Hrun. cbn [bind].
    assert (checks (fold_left push_check cs initial_state) = cs) as Hchecks
        by (rewrite checks_fold_push; reflexivity).
    destruct (non_manifest_failed _); [|destruct (manifest_failed _)]; exact Hchecks. }
  split; [exact Hcs|].
  split; [symmetry; eapply Forall2_length; exact Hall|].
  split.
  - clear -Hall. induction Hall as [|item c items' cs' [Hp _] _ IH]; simpl; congruence.
  - eapply Forall2_impl; [exact Hall|].
    intros item c [_ Hany] st. eexists. split; [apply Hany|reflexivity].
Qed.

(** Closes a goal whose hypothesis says that a list starting with a failing
    check has no failing check. *)
Ltac single_failure :=
  cbn [fst snd];
  let H := fresh "H" in
  intros H; apply Forall_cons in H as [H _]; discriminate H.

(** The built-in verifier reports a container as not ok only together with
    a failing check. *)
Lemma builtin_ok_without_failure (aifm_path : Path) :
  Forall (fun c => ok c = true) (builtin_verify_aifm aifm_path).2 ->
  (builtin_verify_aifm aifm_path).1 = true.
Proof.
  unfold builtin_verify_aifm, builtin_verify_try.
  destruct (ZipFile_open aifm_path) as [z|e]; cbn [bind]; [|single_failure].
  destruct (bool_decide _); cbn [negb]; [|single_failure].
  destruct (read z "manifest.json") as [raw|e]; cbn [bind]; [|single_failure].
  destruct (json_loads raw) as [m|e]; cbn [bind]; [|single_failure].
  destruct (attr_get _ "algorithm" _) as [algo|e]; cbn [bind]; [|single_failure].
  destruct (attr_get _ "hashed_files" _) as [hf|e]; cbn [bind]; [|single_failure].
  destruct (negb _); [single_failure|].
  destruct hf as [| | | | | |[|item items]]; try single_failure.
  destruct (verify_entries _ _ _ _) as [st|e] eqn:Hrun; cbn [bind];
    [|single_failure].
  apply verify_entries_flag in Hrun; [|intros [=]].
  destruct (non_manifest_failed st) eqn:Hflag; [|destruct (manifest_failed st); reflexivity].
  cbn [fst snd]. intros Hall. specialize (Hrun Hflag).
  apply Exists_exists in Hrun as (c & Hc & Hok).
  rewrite Forall_forall in Hall. specialize (Hall c Hc). congruence.
Qed.

Lemma detail_fails_detail (b : bool) (p r : string) : detail_fails (detail b p r) = negb b.
Proof. reflexivity. Qed.

Lemma detail_path_detail (b : bool) (p r : string) : detail_path (detail b p r) = p.
Proof. reflexivity. Qed.

(** C1, as the code has it.  Normalization of a list of checks and of the
    verifier's own verdict [original_ok]: when no check fails the verdict
    stands (ok and [INTACT] if the verifier said ok, not ok and [TAMPERED]
    if it did not); when a failing check has a path other than
    [manifest.json] the outcome is not ok and [TAMPERED]; when checks fail
    and all of them have path [manifest.json] the outcome is ok and
    [INTACT (MANIFEST WARN)].  The built-in verifier says ok whenever none
    of its checks fails, so on its output no failure gives ok and [INTACT]. *)
Theorem normalize_verify_tristate (details : list dict) (original_ok : bool) :
  (Forall (fun d => detail_fails d = false) details ->
   normalize_verify details original_ok
   = (original_ok, if original_ok then "INTACT" else "TAMPERED", false))
  /\
  (Exists (fun d => detail_fails d = true /\ detail_path d <> "manifest.json") details ->
   normalize_verify details original_ok = (false, "TAMPERED", false))
  /\
  (Exists (fun d => detail_fails d = true) details ->
   Forall (fun d => detail_fails d = true -> detail_path d = "manifest.json") details ->
   normalize_verify details original_ok = (true, "INTACT (MANIFEST WARN)", true))
  /\
  (forall aifm_path,
      Forall (fun c => ok c = true) (builtin_verify_aifm aifm_path).2 ->
      normalize_verify
        (map (fun c => detail (ok c) (path c) (reason c)) (builtin_verify_aifm aifm_path).2)
        (builtin_verify_aifm aifm_path).1
      = (true, "INTACT", false)).
Proof.
  repeat split.
  - intros Hall. apply normalize_no_fail. intros d Hd.
    rewrite Forall_forall in Hall. apply Hall, list_elem_of_In, Hd.
  - intros Hex. apply Exists_exists in Hex as (d & Hd & Hfail & Hpath).
    apply (normalize_non_manifest_fail _ _ d); auto. apply list_elem_of_In, Hd.
  - intros Hex Hall. apply Exists_exists in Hex as (d & Hd & Hfail).
    apply (normalize_manifest_only _ _ d); auto; [apply list_elem_of_In, Hd|].
    intros f Hf. rewrite Forall_forall in Hall. apply Hall, list_elem_of_In, Hf.
  - intros aifm_path Hall.
    rewrite (builtin_ok_without_failure aifm_path Hall).
    apply normalize_no_fail. intros d Hd.
    apply in_map_iff in Hd as (c & <- & Hc).
    rewrite detail_fails_detail. rewrite Forall_forall in Hall.
    rewrite (Hall c); [reflexivity|]. apply list_elem_of_In, Hc.
Qed.

(** *** One declared entry *)




(** *** Metadata lookup *)

Lemma or_chain_first (pre : list value) (x : value) (post : list value) (last : value) :
  Forall (fun v => truthy v = false) pre -> truthy x = true ->
  or_chain (pre ++ x :: post) last = x.
Proof.
  intros Hpre Hx. induction Hpre as [|v pre Hv _ IH]; simpl.
  - rewrite Hx. reflexivity.
  - rewrite Hv. exact IH.
Qed.

Lemma or_chain_none (xs : list value) (last : value) :
  Forall (fun v => truthy v = false) xs -> or_chain xs last = last.
Proof.
  intros Hxs. induction Hxs as [|v xs Hv _ IH]; simpl; [reflexivity|].
  rewrite Hv. exact IH.
Qed.

(** C6, as the code has it.  The lookup tries the candidate paths in order
    and returns the value of the first candidate that resolves to a true
    value (not [None], [False], zero, or an empty string, list or mapping);
    when no candidate does it returns the default.  A candidate whose path
    meets a missing key or a value that is not a mapping resolves to [None].
    The five metadata fields of [get_track_info] are such lookups. *)
Theorem lookup_first_truthy (m : value) (candidate_paths : list string) (default : value) :
  (forall pre p post,
      candidate_paths = pre ++ p :: post ->
      Forall (fun q => truthy (safe_get m q VNone) = false) pre ->
      truthy (safe_get m p VNone) = true ->
      lookup m candidate_paths default = safe_get m p VNone)
  /\
  (Forall (fun q => truthy (safe_get m q VNone) = false) candidate_paths ->
   lookup m candidate_paths default = default)
  /\
  (forall cur part parts,
      match cur with
      | VDict d => dict_lookup d part = None
      | _ => True
      end ->
      safe_get_parts cur (part :: parts) VNone = VNone)
  /\
  (author_value m = lookup m ["creator.name"; "author"] (VStr "—")
   /\ ai_system_value m = lookup m ["origin.ai_platform"; "ai.system"; "ai_system"] (VStr "—")
   /\ tier_value m = lookup m ["verification.tier"; "tier"] (VStr "—")
   /\ mode_value m = lookup m ["mode"; "aifx.governance.mode"] (VStr "—")
   /\ origin_url_value m = lookup m ["origin.primary_url"; "origin_url"; "origin.url"] (VStr "")).
Proof.
  split; [|split; [|split]].
  - intros pre p post -> Hpre Hp. unfold lookup.
    rewrite map_app. simpl map.
    apply or_chain_first; [|exact Hp].
    apply Forall_fmap. exact Hpre.
  - intros Hall. unfold lookup. apply or_chain_none.
    apply Forall_fmap. exact Hall.
  - intros cur part parts Hcur. destruct cur; try reflexivity.
    simpl. rewrite Hcur. reflexivity.
  - repeat split.
Qed.

(** *** The track descriptor *)

Lemma get_track_info_miss (self : PaionState) (aifm_path : Path) :
  info_cache self !! aifm_path = None ->
  verify (get_track_info self aifm_path).1 = track_verify aifm_path.
Proof. intros Hmiss. unfold get_track_info. rewrite Hmiss. reflexivity. Qed.

Lemma get_track_info_hit (self : PaionState) (aifm_path : Path) (info : Info) :
  info_cache self !! aifm_path = Some info ->
  get_track_info self aifm_path = (info, self).
Proof. intros Hhit. unfold get_track_info. rewrite Hhit. reflexivity. Qed.

Lemma normalize_single_failure (p r : string) (original_ok : bool) :
  p <> "manifest.json" ->
  normalize_verify [detail false p r] original_ok = (false, "TAMPERED", false).
Proof.
  intros Hp. apply (normalize_non_manifest_fail _ _ (detail false p r));
    [left; reflexivity | reflexivity | exact Hp].
Qed.

Lemma track_verify_single_failure (aifm_path : Path) (c : BuiltinCheck) (b : bool) :
  VERIFY_FN = None ->
  builtin_verify_aifm aifm_path = (b, [c]) ->
  ok c = false ->
  path c <> "manifest.json" ->
  track_verify aifm_path
  = {| verify_ok := false; status := "TAMPERED";
       details := [detail false (path c) (reason c)];
       available := true; engine := "builtin" |}.
Proof.
  intros Hnone Hrun Hok Hpath. unfold track_verify. rewrite Hnone, Hrun.
  cbn [map]. rewrite Hok, (normalize_single_failure _ _ _ Hpath). reflexivity.
Qed.




(** C7. When the external verifier is present and its call raises, the
    track descriptor carries the outcome not ok, [ERROR], available, with a
    single failing detail that names [verify_aifm.py] and has the message of
    the exception as its reason.  [get_track_info] is a total function: the
    exception does not reach its caller. *)
Theorem external_failure_is_error (self : PaionState) (aifm_path : Path)
    (verify_fn : Path -> result (value * list CheckObject)) (e : Exception) :
  VERIFY_FN = Some verify_fn ->
  info_cache self !! aifm_path = None ->
  verify_fn aifm_path = Raise e ->
  verify (get_track_info self aifm_path).1
  = {| verify_ok := false; status := "ERROR";
       details := [detail false "verify_aifm.py" e];
       available := true; engine := "verify_aifm.py" |}.
Proof.
  intros Hsome Hmiss Hraise. rewrite (get_track_info_miss _ _ Hmiss).
  unfold track_verify, external_verify_try. rewrite Hsome, Hraise. reflexivity.
Qed.

Lemma open_failure_raises (aifm_path : Path) (e : Exception) :
  ZipFile_open aifm_path = Raise e -> builtin_verify_try aifm_path = Raise e.
Proof. intros Hopen. unfold builtin_verify_try. rewrite Hopen. reflexivity. Qed.

Lemma manifest_read_failure_raises (aifm_path : Path) (z : ZipFile) (e : Exception) :
  ZipFile_open aifm_path = Ok z ->
  "manifest.json" ∈ namelist z ->
  read z "manifest.json" = Raise e ->
  builtin_verify_try aifm_path = Raise e.
Proof.
  intros Hopen Hin Hread. unfold builtin_verify_try. rewrite Hopen. cbn [bind].
  rewrite (bool_decide_eq_true_2 _ (proj2 (in_names _ _) Hin)). cbn [negb].
  rewrite Hread. reflexivity.
Qed.

Lemma verify_entries_read_failure (z : ZipFile) (names : gset string)
    (before after : dict) (relpath : string) (meta : value) (e : Exception) :
  (forall r m, In (r, m) before -> r ∈ names -> exists data, read z r = Ok data) ->
  relpath ∈ names ->
  read z relpath = Raise e ->
  forall st, verify_entries z names (before ++ (relpath, meta) :: after) st = Raise e.
Proof.
  intros Hbefore Hin Hread. induction before as [|[r m] before IH]; intros st; simpl.
  - unfold verify_entry. rewrite (bool_decide_eq_true_2 _ Hin). cbn [negb].
    rewrite Hread. reflexivity.
  - destruct (verify_entry_readable z names st r m) as [st' ->].
    { apply (Hbefore r m). left. reflexivity. }
    cbn [bind]. apply IH. intros r' m' Hr'. apply (Hbefore r' m'). right. exact Hr'.
Qed.

(** A declared member that is in the archive and cannot be read ends the
    loop: the checks made so far are dropped with the exception. *)
Lemma member_read_failure_raises (aifm_path : Path) (z : ZipFile) (raw : bytes)
    (m : value) (integ before after : dict) (relpath : string) (meta : value)
    (e : Exception) :
  ZipFile_open aifm_path = Ok z ->
  "manifest.json" ∈ namelist z ->
  read z "manifest.json" = Ok raw ->
  json_loads raw = Ok m ->
  manifest_integrity m = VDict integ ->
  Str.lower (py_str (dict_get integ "algorithm" (VStr "sha256"))) = "sha256" ->
  dict_lookup integ "hashed_files" = Some (VDict (before ++ (relpath, meta) :: after)) ->
  (forall r m, In (r, m) before -> r ∈ namelist z -> exists data, read z r = Ok data) ->
  relpath ∈ namelist z ->
  read z relpath = Raise e ->
  builtin_verify_try aifm_path = Raise e.
Proof.
  intros Hopen Hin Hread Hparse Hinteg Halgo Hhf Hbefore Hmem Hfail.
  unfold builtin_verify_try. rewrite Hopen. cbn [bind].
  rewrite (bool_decide_eq_true_2 _ (proj2 (in_names _ _) Hin)). cbn [negb].
  rewrite Hread. cbn [bind]. rewrite Hparse. cbn [bind].
  rewrite Hinteg. cbn [attr_get bind].
  rewrite Halgo. cbn [String.eqb Ascii.eqb Bool.eqb negb].
  unfold dict_get at 1. rewrite Hhf.
  rewrite (verify_entries_read_failure z (names_of z) before after relpath meta e).
  - destruct before; reflexivity.
  - intros r m' Hr Hrin. apply (Hbefore r m' Hr). apply in_names. exact Hrin.
  - apply in_names. exact Hmem.
  - exact Hfail.
Qed.

(** C8, as the code has it.  When the [try] block of the built-in verifier
    raises (the archive does not open, a member cannot be read, the manifest
    does not parse), the failure is caught there and becomes the single
    failing check [builtin_verify] with the message of the exception; after
    normalization the track descriptor carries the outcome not ok with
    status [TAMPERED].  [get_track_info] is a total function: the exception
    does not reach its caller. *)
Theorem builtin_failure_is_tampered (self : PaionState) (aifm_path : Path) (e : Exception) :
  VERIFY_FN = None ->
  info_cache self !! aifm_path = None ->
  builtin_verify_try aifm_path = Raise e ->
  verify (get_track_info self aifm_path).1
  = {| verify_ok := false; status := "TAMPERED";
       details := [detail false "builtin_verify" e];
       available := true; engine := "builtin" |}.
Proof.
  intros Hnone Hmiss Hraise. rewrite (get_track_info_miss _ _ Hmiss).
  apply (track_verify_single_failure aifm_path
           {| ok := false; path := "builtin_verify"; reason := e |} false Hnone);
    [|reflexivity|discriminate].
  unfold builtin_verify_aifm. rewrite Hraise. reflexivity.
Qed.

(** *** Sorting *)

Section SortedFacts.

Context {A K : Type} (lt : K -> K -> bool) (key : A -> K).
Hypothesis lt_asym : forall a b, lt a b = true -> lt b a = false.
Hypothesis le_trans : forall a b c, lt b a = false -> lt c b = false -> lt c a = false.

Lemma insert_sorted_perm (x : A) (l : list A) : insert_sorted lt key x l ≡ₚ x :: l.
Proof.
  induction l as [|y l IH]; simpl; [reflexivity|].
  destruct (lt (key y) (key x)); [|reflexivity].
  rewrite IH. apply Permutation_swap.
Qed.

Lemma sorted_perm (l : list A) : sorted lt key l ≡ₚ l.
Proof.
  induction l as [|x l IH]; simpl; [reflexivity|].
  rewrite insert_sorted_perm, IH. reflexivity.
Qed.

Lemma insert_sorted_HdRel (a x : A) (l : list A) :
  sorted_le lt key a x -> HdRel (sorted_le lt key) a l ->
  HdRel (sorted_le lt key) a (insert_sorted lt key x l).
Proof.
  intros Hax Hal. destruct l as [|y l]; simpl; [constructor; exact Hax|].
  destruct (lt (key y) (key x)); constructor; [|exact Hax].
  inversion Hal; assumption.
Qed.

Lemma insert_sorted_Sorted (x : A) (l : list A) :
  Sorted (sorted_le lt key) l -> Sorted (sorted_le lt key) (insert_sorted lt key x l).
Proof using lt_asym.
  induction 1 as [|y l Hl IH Hhd]; simpl; [repeat constructor|].
  destruct (lt (key y) (key x)) eqn:Hyx.
  - constructor; [exact IH|].
    apply insert_sorted_HdRel; [|exact Hhd].
    unfold sorted_le. apply lt_asym. exact Hyx.
  - constructor; [constructor; assumption|].
    constructor. exact Hyx.
Qed.

Lemma sorted_Sorted (l : list A) : Sorted (sorted_le lt key) (sorted lt key l).
Proof using lt_asym.
  induction l as [|x l IH]; simpl; [constructor|].
  apply insert_sorted_Sorted. exact IH.
Qed.

Lemma sorted_nil_inv (l : list A) : sorted lt key l = [] -> l = [].
Proof.
  intros Hnil. apply Permutation_nil. rewrite <- Hnil. apply sorted_perm.
Qed.

Lemma head_insert_sorted (x : A) (l : list A) :
  head (insert_sorted lt key x l)
  = match head l with
    | Some y => if lt (key y) (key x) then Some y else Some x
    | None => Some x
    end.
Proof.
  destruct l as [|y l]; simpl; [reflexivity|].
  destruct (lt (key y) (key x)); reflexivity.
Qed.

(** The head of the sorted list is the first element of the list with the
    least key: the elements before it have a strictly greater key, and no
    element after it has a smaller one. *)
Lemma sorted_head_first_min (l : list A) (m : A) :
  head (sorted lt key l) = Some m ->
  exists pre post,
    l = pre ++ m :: post
    /\ Forall (fun n => lt (key m) (key n) = true) pre
    /\ Forall (fun n => lt (key n) (key m) = false) post.
Proof using lt_asym le_trans.
  revert m. induction l as [|x l IH]; intros m; simpl; [discriminate|].
  rewrite head_insert_sorted.
  destruct (head (sorted lt key l)) as [y|] eqn:Hhead.
  - destruct (IH y eq_refl) as (pre & post & -> & Hpre & Hpost).
    destruct (lt (key y) (key x)) eqn:Hyx; intros [= <-].
    + exists (x :: pre), post. repeat split; [constructor|]; assumption.
    + exists [], (pre ++ y :: post). repeat split; [constructor|].
      apply Forall_app. split; [|constructor].
      * eapply Forall_impl; [exact Hpre|]. intros n Hn. simpl in Hn.
        apply (le_trans _ (key y)); [exact Hyx|]. apply lt_asym. exact Hn.
      * exact Hyx.
      * eapply Forall_impl; [exact Hpost|]. intros n Hn. simpl in Hn.
        apply (le_trans _ (key y)); assumption.
  - intros [= <-]. destruct (sorted lt key l) eqn:Hs; [|discriminate].
    apply sorted_nil_inv in Hs as ->.
    exists [], []. repeat split; constructor.
Qed.

End SortedFacts.

Lemma Sorted_weaken {A : Type} (R R' : A -> A -> Prop) (l : list A) :
  (forall x y, R x y -> R' x y) -> Sorted R l -> Sorted R' l.
Proof.
  intros HR. induction 1 as [|x l Hl IH Hhd]; constructor; [exact IH|].
  destruct Hhd; constructor. apply HR. assumption.
Qed.

Lemma ltb_false_le (a b : string) : String.ltb b a = false <-> String.le a b.
Proof.
  unfold String.ltb, String.le, String.leb. rewrite (String.compare_antisym a b).
  destruct (String.compare b a); simpl; split; intros H;
    first [exact I | reflexivity | discriminate H | destruct H].
Qed.

Lemma key_lt_false (a b : Z * string) :
  key_lt b a = false <-> (a.1 < b.1 \/ (a.1 = b.1 /\ String.le a.2 b.2)).
Proof.
  unfold key_lt. rewrite orb_false_iff, andb_false_iff, Z.ltb_ge, Z.eqb_neq, ltb_false_le.
  split.
  - intros [Hle [Hne | Hs]]; [left; lia|].
    destruct (decide (a.1 = b.1)); [right; auto | left; lia].
  - intros [Hlt | [Heq Hs]].
    + split; [lia | left; lia].
    + split; [lia | right; exact Hs].
Qed.

Lemma key_lt_asym (a b : Z * string) : key_lt a b = true -> key_lt b a = false.
Proof.
  intros Hab. apply key_lt_false.
  unfold key_lt in Hab. apply orb_true_iff in Hab as [Hlt | Heq].
  - left. apply Z.ltb_lt. exact Hlt.
  - apply andb_true_iff in Heq as [Heq Hs]. apply Z.eqb_eq in Heq.
    right. split; [exact Heq|].
    apply ltb_false_le. unfold String.ltb in *.
    rewrite String.compare_antisym. destruct (String.compare a.2 b.2); try discriminate.
    reflexivity.
Qed.

Lemma key_le_trans (a b c : Z * string) :
  key_lt b a = false -> key_lt c b = false -> key_lt c a = false.
Proof.
  rewrite !key_lt_false.
  intros [Hab | [Hab Hsab]] [Hbc | [Hbc Hsbc]]; try (left; lia).
  right. split; [lia|]. etrans; eassumption.
Qed.

(** *** Asset selection *)

Lemma mem_In (x : string) (xs : list string) : Str.mem x xs = true <-> In x xs.
Proof.
  unfold Str.mem. rewrite existsb_exists. split.
  - intros (y & Hy & Heq). apply String.eqb_eq in Heq as ->. exact Hy.
  - intros Hx. exists x. split; [exact Hx | apply String.eqb_refl].
Qed.

Lemma candidates_iff (z : ZipFile) (prefixes exts_priority : list string) (n : string) :
  In n (candidates z prefixes exts_priority) <-> is_candidate z prefixes exts_priority n.
Proof.
  unfold candidates, is_candidate.
  rewrite !filter_In, !andb_true_iff, !negb_true_iff, String.eqb_neq, existsb_exists, mem_In.
  split.
  - intros [[Hn [Hne Hdir]] [Hpre Hext]]. repeat split; assumption.
  - intros (Hn & Hne & Hdir & Hpre & Hext). repeat split; assumption.
Qed.

Lemma hinted_iff (z : ZipFile) (prefixes exts_priority hint_substrings : list string)
    (n : string) :
  In n (hinted z prefixes exts_priority hint_substrings)
  <-> In n (candidates z prefixes exts_priority) /\ is_hinted hint_substrings n.
Proof.
  unfold hinted, is_hinted. rewrite filter_In.
  destruct hint_substrings as [|h hs].
  - split; [intros [_ [=]] | intros [_ (h & [] & _)]].
  - unfold has_hint. rewrite existsb_exists. reflexivity.
Qed.

Lemma pool_hinted (z : ZipFile) (prefixes exts_priority hint_substrings : list string)
    (n : string) :
  In n (candidates z prefixes exts_priority) -> is_hinted hint_substrings n ->
  pool z prefixes exts_priority hint_substrings
  = hinted z prefixes exts_priority hint_substrings.
Proof.
  intros Hn Hh. unfold pool.
  destruct (hinted z prefixes exts_priority hint_substrings) eqn:E; [|reflexivity].
  assert (In n []) as [] by (rewrite <- E; apply hinted_iff; auto).
Qed.

Lemma pool_unhinted (z : ZipFile) (prefixes exts_priority hint_substrings : list string) :
  (forall n, In n (candidates z prefixes exts_priority) -> ~ is_hinted hint_substrings n) ->
  pool z prefixes exts_priority hint_substrings = candidates z prefixes exts_priority.
Proof.
  intros Hnone. unfold pool.
  destruct (hinted z prefixes exts_priority hint_substrings) as [|n l] eqn:E; [reflexivity|].
  assert (In n (hinted z prefixes exts_priority hint_substrings)) as Hn
      by (rewrite E; left; reflexivity).
  apply hinted_iff in Hn as [Hn Hh]. destruct (Hnone n Hn Hh).
Qed.

Lemma choose_head_sorted (z : ZipFile) (prefixes exts_priority hint_substrings : list string) :
  choose_member_by_ext z prefixes exts_priority hint_substrings
  = head (sorted key_lt (sort_key exts_priority)
                 (pool z prefixes exts_priority hint_substrings)).
Proof.
  unfold choose_member_by_ext.
  destruct (candidates z prefixes exts_priority) eqn:E; [|reflexivity].
  unfold pool, hinted. rewrite E. reflexivity.
Qed.

Lemma sorted_le_rank_then_name (exts_priority : list string) (x y : string) :
  sorted_le key_lt (sort_key exts_priority) x y <-> rank_then_name exts_priority x y.
Proof. unfold sorted_le. apply key_lt_false. Qed.

Lemma ext_rank_pdf (n : string) :
  ext_rank declaration_exts n <= 0 -> PurePath.suffix (Str.lower n) = ".pdf".
Proof.
  unfold ext_rank, declaration_exts, Str.index.
  destruct (String.eqb ".pdf" (PurePath.suffix (Str.lower n))) eqn:Hpdf.
  - intros _. apply String.eqb_eq in Hpdf. congruence.
  - destruct (String.eqb ".txt" (PurePath.suffix (Str.lower n))); simpl; lia.
Qed.

(** C9. Declaration, prompt and lyrics resolution are
    [choose_member_by_ext] on the prefix [metadata/].  Its candidates are
    the members that are not directory entries, whose lower-cased path
    starts with a prefix and whose extension is in the priority list; the
    hinted ones are the candidates whose lower-cased path contains a hint;
    the pool is the hinted candidates when there is one and all candidates
    otherwise; the result is the head of the pool sorted by extension rank,
    then lower-cased path: none exactly when the pool is empty, and
    otherwise the first member of the pool with the least key.  With
    [metadata/decl.pdf] and [metadata/decl.txt] in the archive and no hint
    matching, declaration resolution returns a [.pdf] member, which is
    [metadata/decl.pdf] when no other candidate has that extension. *)
Theorem choose_member_by_ext_sorted_head (z : ZipFile)
    (prefixes exts_priority hint_substrings : list string) :
  let cands := candidates z prefixes exts_priority in
  let pl := pool z prefixes exts_priority hint_substrings in
  let pool_sorted := sorted key_lt (sort_key exts_priority) pl in
  let chosen := choose_member_by_ext z prefixes exts_priority hint_substrings in
  (find_declaration_member_anyname z
   = choose_member_by_ext z ["metadata/"] declaration_exts declaration_hints
   /\ find_prompt_member_anyname z
      = choose_member_by_ext z ["metadata/"] [".txt"] ["prompt"; "suno"; "udio"; "instruction"]
   /\ find_lyrics_member_anyname z
      = choose_member_by_ext z ["metadata/"] [".txt"] ["lyric"; "lyrics"; "words"; "verse"])
  /\ (forall n, In n cands <-> is_candidate z prefixes exts_priority n)
  /\ ((exists n, In n cands /\ is_hinted hint_substrings n) ->
      forall n, In n pl <-> In n cands /\ is_hinted hint_substrings n)
  /\ ((forall n, In n cands -> ~ is_hinted hint_substrings n) -> pl = cands)
  /\ pool_sorted ≡ₚ pl
  /\ Sorted (rank_then_name exts_priority) pool_sorted
  /\ chosen = head pool_sorted
  /\ (chosen = None <-> pl = [])
  /\ (forall m, chosen = Some m ->
        exists pre post,
          pl = pre ++ m :: post
          /\ Forall (fun n => rank_then_name exts_priority m n
                              /\ ~ rank_then_name exts_priority n m) pre
          /\ Forall (fun n => rank_then_name exts_priority m n) post)
  /\ (In "metadata/decl.pdf" (namelist z) ->
      In "metadata/decl.txt" (namelist z) ->
      (forall n, is_candidate z ["metadata/"] declaration_exts n ->
                 ~ is_hinted declaration_hints n) ->
      exists m,
        find_declaration_member_anyname z = Some m
        /\ PurePath.suffix (Str.lower m) = ".pdf"
        /\ ((forall n, is_candidate z ["metadata/"] declaration_exts n ->
                       PurePath.suffix (Str.lower n) = ".pdf" -> n = "metadata/decl.pdf") ->
            m = "metadata/decl.pdf")).
Proof.
  intros cands pl pool_sorted chosen.
  assert (chosen = head pool_sorted) as Hchosen by apply choose_head_sorted.
  assert (forall l m,
             head (sorted key_lt (sort_key exts_priority) l) = Some m ->
             exists pre post,
               l = pre ++ m :: post
               /\ Forall (fun n => rank_then_name exts_priority m n
                                   /\ ~ rank_then_name exts_priority n m) pre
               /\ Forall (fun n => rank_then_name exts_priority m n) post) as Hmin.
  { intros l m Hm.
    destruct (sorted_head_first_min key_lt (sort_key exts_priority)
                key_lt_asym key_le_trans l m Hm) as (pre & post & Hl & Hpre & Hpost).
    exists pre, post. split; [exact Hl|]. split.
    - eapply Forall_impl; [exact Hpre|]. intros n Hn. simpl in Hn. split.
      + apply sorted_le_rank_then_name. apply key_lt_asym. exact Hn.
      + rewrite <- sorted_le_rank_then_name. unfold sorted_le. rewrite Hn. discriminate.
    - eapply Forall_impl; [exact Hpost|]. intros n Hn.
      apply sorted_le_rank_then_name. exact Hn. }
  split; [repeat split|].
  split; [apply candidates_iff|].
  split.
  { intros (n0 & Hn0 & Hh0) n. subst pl. rewrite (pool_hinted _ _ _ _ n0 Hn0 Hh0).
    apply hinted_iff. }
  split; [apply pool_unhinted|].
  split; [apply sorted_perm|].
  split.
  { eapply Sorted_weaken; [|apply (sorted_Sorted key_lt (sort_key exts_priority) key_lt_asym)].
    intros x y. apply sorted_le_rank_then_name. }
  split; [exact Hchosen|].
  split.
  { rewrite Hchosen. split.
    - intros Hnone. apply (sorted_nil_inv key_lt (sort_key exts_priority)).
      fold pool_sorted. destruct pool_sorted; [reflexivity|discriminate].
    - intros Hnil. subst pool_sorted. rewrite Hnil. reflexivity. }
  split.
  { intros m Hm. apply Hmin. change (head pool_sorted = Some m).
    rewrite <- Hchosen. exact Hm. }
  intros Hpdf Htxt Hnohint.
  assert (is_candidate z ["metadata/"] declaration_exts "metadata/decl.pdf") as Hcand.
  { repeat split; [exact Hpdf | discriminate | | left; reflexivity].
    exists "metadata/". split; [left|]; reflexivity. }
  assert (pool z ["metadata/"] declaration_exts declaration_hints
          = candidates z ["metadata/"] declaration_exts) as Hpool.
  { apply pool_unhinted. intros n Hn. apply Hnohint, candidates_iff, Hn. }
  unfold find_declaration_member_anyname.
  fold declaration_exts declaration_hints.
  rewrite choose_head_sorted, Hpool.
  destruct (head (sorted key_lt (sort_key declaration_exts)
                         (candidates z ["metadata/"] declaration_exts))) as [m|] eqn:Hhead.
  - exists m. split; [reflexivity|].
    assert (forall l m0, head (sorted key_lt (sort_key declaration_exts) l) = Some m0 ->
                         forall n, In n l -> sorted_le key_lt (sort_key declaration_exts) m0 n)
      as Hleast.
    { intros l m0 Hm0 n Hn.
      destruct (sorted_head_first_min key_lt (sort_key declaration_exts)
                  key_lt_asym key_le_trans l m0 Hm0) as (pre & post & -> & Hpre & Hpost).
      rewrite Forall_forall in Hpre. rewrite Forall_forall in Hpost.
      apply in_app_or in Hn as [Hn | [<- | Hn]].
      - apply key_lt_asym, Hpre, list_elem_of_In, Hn.
      - unfold sorted_le. destruct (key_lt _ _) eqn:Hlt; [|reflexivity].
        apply key_lt_asym in Hlt as Hlt'. congruence.
      - apply Hpost, list_elem_of_In, Hn. }
    assert (In m (candidates z ["metadata/"] declaration_exts)) as Hm.
    { destruct (sorted_head_first_min key_lt (sort_key declaration_exts)
                  key_lt_asym key_le_trans _ m Hhead) as (pre & post & -> & _).
      apply in_or_app. right. left. reflexivity. }
    assert (PurePath.suffix (Str.lower m) = ".pdf") as Hsuffix.
    { apply ext_rank_pdf.
      specialize (Hleast _ _ Hhead "metadata/decl.pdf" (proj2 (candidates_iff _ _ _ _) Hcand)).
      apply sorted_le_rank_then_name in Hleast. unfold rank_then_name in Hleast.
      change (ext_rank declaration_exts "metadata/decl.pdf") with 0 in Hleast.
      destruct Hleast as [Hlt | [Heq _]]; lia. }
    split; [exact Hsuffix|].
    intros Honly. apply Honly; [apply candidates_iff, Hm | exact Hsuffix].
  - exfalso.
    destruct (sorted key_lt (sort_key declaration_exts)
                     (candidates z ["metadata/"] declaration_exts)) eqn:Hs; [|discriminate].
    apply sorted_nil_inv in Hs. apply candidates_iff in Hcand. rewrite Hs in Hcand.
    destruct Hcand.
Qed.

(** *** Track selection in the routes *)

(** X1. For bounds [lo <= hi], [clamp] answers a value within the bounds: the
    argument itself when it is within them, [lo] when it is below and [hi]
    when it is above.  With the bounds the other way round, [hi < lo], it
    answers [lo] whatever the argument is, a value above the upper bound. *)
Theorem clamp_within_bounds (n lo hi : Z) :
  (lo <= hi ->
   lo <= clamp n lo hi <= hi
   /\ (lo <= n <= hi -> clamp n lo hi = n)
   /\ (n < lo -> clamp n lo hi = lo)
   /\ (hi < n -> clamp n lo hi = hi))
  /\ (hi < lo -> clamp n lo hi = lo).
Proof.
  unfold clamp. split.
  - intros Hbounds. split; [lia|]. split; [lia|]. split; lia.
  - intros Hinverted. apply Z.max_l. lia.
Qed.

Lemma nth_error_lookup {A : Type} (l : list A) (i : nat) : nth_error l i = l !! i.
Proof. revert i. induction l as [|x l IH]; intros [|i]; simpl; auto. Qed.

Lemma list_getitem_in_range {A : Type} (l : list A) (i : Z) :
  0 <= i < Z.of_nat (length l) ->
  exists x, list_getitem l i = Ok x /\ nth_error l (Z.to_nat i) = Some x.
Proof.
  intros Hi. unfold list_getitem.
  destruct (Z.ltb_spec i 0) as [Hneg|_]; [lia|].
  destruct (Z.leb_spec 0 i) as [_|Hneg]; [|lia].
  destruct (Z.ltb_spec i (Z.of_nat (length l))) as [_|Hbig]; [|lia].
  cbn [andb].
  destruct (nth_error l (Z.to_nat i)) as [x|] eqn:Hnth; [eauto|].
  apply nth_error_None in Hnth. lia.
Qed.

Lemma route_track_some (state : PaionState) (index : Z) :
  tracks state <> [] ->
  exists aifm,
    route_track state index = Ok (Some aifm)
    /\ In aifm (tracks state)
    /\ nth_error (tracks state)
         (Z.to_nat (clamp index 0 (Z.of_nat (length (tracks state)) - 1))) = Some aifm.
Proof.
  intros Hne. unfold route_track.
  destruct (tracks state) as [|t ts] eqn:Htracks; [contradiction|].
  set (l := t :: ts) in *.
  assert (0 < Z.of_nat (length l)) as Hlen by (subst l; simpl; lia).
  destruct (list_getitem_in_range l (clamp index 0 (Z.of_nat (length l) - 1)))
    as (aifm & Hget & Hnth).
  { unfold clamp. lia. }
  exists aifm. rewrite Hget. cbn [bind].
  split; [reflexivity|]. split; [eapply nth_error_In; exact Hnth | exact Hnth].
Qed.

(** X2. With a playlist that is not empty, the routes select a track for
    every index and never raise [IndexError]: the track at the index clamped
    to the playlist, so a negative index selects the first track (it does
    not count from the end) and an index past the end selects the last. *)
Theorem route_track_in_range (state : PaionState) (index : Z) :
  tracks state <> [] ->
  exists aifm,
    route_track state index = Ok (Some aifm)
    /\ In aifm (tracks state)
    /\ nth_error (tracks state)
         (Z.to_nat (clamp index 0 (Z.of_nat (length (tracks state)) - 1))) = Some aifm
    /\ (index <= 0 -> head (tracks state) = Some aifm)
    /\ (Z.of_nat (length (tracks state)) - 1 <= index -> last (tracks state) = Some aifm).
Proof.
  intros Hne. destruct (route_track_some state index Hne) as (aifm & Hroute & Hin & Hnth).
  exists aifm. split; [exact Hroute|]. split; [exact Hin|]. split; [exact Hnth|].
  assert (0 < Z.of_nat (length (tracks state))) as Hlen.
  { destruct (tracks state); [contradiction | simpl; lia]. }
  split.
  - intros Hlow.
    replace (clamp index 0 (Z.of_nat (length (tracks state)) - 1)) with 0 in Hnth
      by (unfold clamp; lia).
    destruct (tracks state); [contradiction | exact Hnth].
  - intros Hhigh.
    replace (clamp index 0 (Z.of_nat (length (tracks state)) - 1))
      with (Z.of_nat (length (tracks state)) - 1) in Hnth by (unfold clamp; lia).
    rewrite last_lookup.
    replace (Z.to_nat (Z.of_nat (length (tracks state)) - 1))
      with (Nat.pred (length (tracks state))) in Hnth by lia.
    rewrite <- Hnth. symmetry. apply nth_error_lookup.
Qed.

(** *** Letter case and extensions *)

Lemma lower_char_idem (c : ascii) : Str.lower_char (Str.lower_char c) = Str.lower_char c.
Proof. destruct c as [[] [] [] [] [] [] [] []]; reflexivity. Qed.

Lemma lower_char_slash (c : ascii) : Ascii.eqb (Str.lower_char c) "/" = Ascii.eqb c "/".
Proof. destruct c as [[] [] [] [] [] [] [] []]; reflexivity. Qed.

Lemma lower_char_dot (c : ascii) : Ascii.eqb (Str.lower_char c) "." = Ascii.eqb c ".".
Proof. destruct c as [[] [] [] [] [] [] [] []]; reflexivity. Qed.

Lemma lower_idem (s : string) : Str.lower (Str.lower s) = Str.lower s.
Proof. induction s as [|c s IH]; simpl; [reflexivity|]. rewrite lower_char_idem, IH. reflexivity. Qed.

Lemma lower_length (s : string) : String.length (Str.lower s) = String.length s.
Proof. induction s as [|c s IH]; simpl; congruence. Qed.

Lemma lower_eqb_empty (s : string) : String.eqb (Str.lower s) "" = String.eqb s "".
Proof. destruct s; reflexivity. Qed.

Lemma lower_eqb_dot (s : string) : String.eqb (Str.lower s) "." = String.eqb s ".".
Proof.
  destruct s as [|c s]; [reflexivity|]. simpl.
  rewrite lower_char_dot. destruct (Ascii.eqb c "."); [|reflexivity].
  apply lower_eqb_empty.
Qed.

Lemma split_slash_lower (s : string) :
  Str.split "/" (Str.lower s) = map Str.lower (Str.split "/" s).
Proof.
  induction s as [|c s IH]; simpl; [reflexivity|].
  rewrite lower_char_slash, IH.
  destruct (Ascii.eqb c "/"); [reflexivity|].
  destruct (Str.split "/" s); reflexivity.
Qed.

Lemma parts_lower (s : string) : PurePath.parts (Str.lower s) = map Str.lower (PurePath.parts s).
Proof.
  unfold PurePath.parts. rewrite split_slash_lower.
  induction (Str.split "/" s) as [|x l IH]; simpl; [reflexivity|].
  rewrite lower_eqb_empty, lower_eqb_dot, IH.
  destruct (negb (String.eqb x "") && negb (String.eqb x ".")); reflexivity.
Qed.

Lemma last_map_lower (l : list string) :
  List.last (map Str.lower l) "" = Str.lower (List.last l "").
Proof.
  induction l as [|x l IH]; [reflexivity|].
  destruct l as [|y l]; [reflexivity|]. exact IH.
Qed.

Lemma name_lower (s : string) : PurePath.name (Str.lower s) = Str.lower (PurePath.name s).
Proof. unfold PurePath.name. rewrite parts_lower. apply last_map_lower. Qed.

Lemma rfind_dot_lower (s : string) : Str.rfind_dot (Str.lower s) = Str.rfind_dot s.
Proof.
  induction s as [|c s IH]; simpl; [reflexivity|].
  rewrite IH, lower_char_dot. reflexivity.
Qed.

Lemma substring_lower (i k : nat) (s : string) :
  String.substring i k (Str.lower s) = Str.lower (String.substring i k s).
Proof.
  revert i k. induction s as [|c s IH]; intros [|i] [|k]; simpl; try reflexivity.
  - rewrite IH. reflexivity.
  - apply IH.
  - apply IH.
Qed.

Lemma suffix_lower (s : string) : PurePath.suffix (Str.lower s) = Str.lower (PurePath.suffix s).
Proof.
  unfold PurePath.suffix. rewrite name_lower, rfind_dot_lower, lower_length.
  destruct (Str.rfind_dot (PurePath.name s)) as [i|]; [|reflexivity].
  destruct ((0 <? i) && (i <? String.length (PurePath.name s) - 1))%nat; [|reflexivity].
  apply substring_lower.
Qed.

Lemma lstrip_dot_lower (s : string) : Str.lstrip_dot (Str.lower s) = Str.lower (Str.lstrip_dot s).
Proof.
  induction s as [|c s IH]; simpl; [reflexivity|].
  rewrite lower_char_dot. destruct (Ascii.eqb c "."); [exact IH | reflexivity].
Qed.

(** X3. The media type depends on the extension of the last component of the
    path only, whatever the case of its letters: a name and its lower-cased
    form get the same type. *)
Theorem guess_mimetype_ignores_case (filename : string) :
  guess_mimetype (Str.lower filename) = guess_mimetype filename.
Proof. unfold guess_mimetype. rewrite suffix_lower, lower_idem. reflexivity. Qed.

(** *** What asset resolution returns *)

Lemma pool_in_candidates (z : ZipFile) (prefixes exts_priority hint_substrings : list string)
    (n : string) :
  In n (pool z prefixes exts_priority hint_substrings) ->
  In n (candidates z prefixes exts_priority).
Proof.
  unfold pool.
  destruct (hinted z prefixes exts_priority hint_substrings) as [|x l] eqn:E; [auto|].
  rewrite <- E. intros Hn. apply hinted_iff in Hn as [Hn _]. exact Hn.
Qed.

Lemma choose_is_candidate (z : ZipFile) (prefixes exts_priority hint_substrings : list string)
    (m : string) :
  choose_member_by_ext z prefixes exts_priority hint_substrings = Some m ->
  is_candidate z prefixes exts_priority m.
Proof.
  rewrite choose_head_sorted. intros Hm.
  destruct (sorted_head_first_min key_lt (sort_key exts_priority) key_lt_asym key_le_trans
              _ m Hm) as (pre & post & Hpool & _).
  apply candidates_iff, (pool_in_candidates _ _ _ hint_substrings).
  rewrite Hpool. apply in_or_app. right. left. reflexivity.
Qed.

Lemma asset_of_suffix (z : ZipFile) (k m want : string) (default : Asset) :
  pick_asset_member z k = Some m ->
  m <> "" ->
  String.eqb k "manifest" = false ->
  PurePath.suffix (Str.lower m) = want ->
  track_asset z k default
  = {| asset_exists := true; member := m; ext := Str.lstrip_dot want |}
  /\ Str.lower (PurePath.suffix m) = want.
Proof.
  intros Hpick Hne Hk Hsuffix. unfold track_asset. rewrite Hpick, Hk.
  apply String.eqb_neq in Hne. rewrite Hne.
  rewrite suffix_lower in Hsuffix.
  rewrite <- lstrip_dot_lower, Hsuffix. split; reflexivity.
Qed.

(** X4. A resolved declaration, prompt or lyrics member has an extension of
    the kind's list, whatever the case of its letters, so the asset entry
    and the media type it is served with are known: a declaration is
    [pdf / application/pdf] or [txt / text/plain], a prompt and lyrics are
    [txt / text/plain]. *)
Theorem resolved_assets_are_typed (z : ZipFile) (m : string) (default : Asset) :
  (find_declaration_member_anyname z = Some m ->
   (track_asset z "declaration" default = {| asset_exists := true; member := m; ext := "pdf" |}
    /\ guess_mimetype m = "application/pdf")
   \/ (track_asset z "declaration" default = {| asset_exists := true; member := m; ext := "txt" |}
       /\ guess_mimetype m = "text/plain; charset=utf-8"))
  /\ (find_prompt_member_anyname z = Some m ->
      track_asset z "prompt" default = {| asset_exists := true; member := m; ext := "txt" |}
      /\ guess_mimetype m = "text/plain; charset=utf-8")
  /\ (find_lyrics_member_anyname z = Some m ->
      track_asset z "lyrics" default = {| asset_exists := true; member := m; ext := "txt" |}
      /\ guess_mimetype m = "text/plain; charset=utf-8").
Proof.
  split; [|split].
  - intros Hm. destruct (choose_is_candidate _ _ _ _ _ Hm) as (_ & Hne & _ & _ & Hext).
    destruct Hext as [Hpdf | [Htxt | []]].
    + left.
      destruct (asset_of_suffix z "declaration" m ".pdf" default Hm Hne eq_refl (eq_sym Hpdf))
        as [Hasset Hlow].
      split; [exact Hasset|]. unfold guess_mimetype. rewrite Hlow. reflexivity.
    + right.
      destruct (asset_of_suffix z "declaration" m ".txt" default Hm Hne eq_refl (eq_sym Htxt))
        as [Hasset Hlow].
      split; [exact Hasset|]. unfold guess_mimetype. rewrite Hlow. reflexivity.
  - intros Hm. destruct (choose_is_candidate _ _ _ _ _ Hm) as (_ & Hne & _ & _ & Hext).
    destruct Hext as [Htxt | []].
    destruct (asset_of_suffix z "prompt" m ".txt" default Hm Hne eq_refl (eq_sym Htxt))
      as [Hasset Hlow].
    split; [exact Hasset|]. unfold guess_mimetype. rewrite Hlow. reflexivity.
  - intros Hm. destruct (choose_is_candidate _ _ _ _ _ Hm) as (_ & Hne & _ & _ & Hext).
    destruct Hext as [Htxt | []].
    destruct (asset_of_suffix z "lyrics" m ".txt" default Hm Hne eq_refl (eq_sym Htxt))
      as [Hasset Hlow].
    split; [exact Hasset|]. unfold guess_mimetype. rewrite Hlow. reflexivity.
Qed.

Lemma in_names_In (z : ZipFile) (n : string) : n ∈ names_of z <-> In n (namelist z).
Proof. rewrite in_names. apply list_elem_of_In. Qed.

Lemma find_cover_member_unfold (z : ZipFile) :
  find_cover_member z
  = match List.find (fun p => bool_decide (p ∈ names_of z)) preferred_covers with
    | Some p => Some p
    | None => List.find cover_fallback (namelist z)
    end.
Proof. reflexivity. Qed.

(** X5. Asset resolution never invents a member: whatever the kind is,
    a member that [pick_asset_member] returns is in the archive. *)
Theorem pick_asset_member_in_archive (z : ZipFile) (kind m : string) :
  pick_asset_member z kind = Some m -> In m (namelist z).
Proof.
  unfold pick_asset_member.
  repeat match goal with
         | |- context [if String.eqb ?a ?b then _ else _] => destruct (String.eqb a b)
         end.
  - rewrite find_cover_member_unfold.
    destruct (List.find _ preferred_covers) as [p|] eqn:Hpref.
    + intros [= <-]. apply find_some in Hpref as [_ Hin].
      apply bool_decide_eq_true in Hin. apply in_names_In. exact Hin.
    + intros Hfind. apply find_some in Hfind as [Hin _]. exact Hin.
  - intros Hm. apply choose_is_candidate in Hm as [Hin _]. exact Hin.
  - intros Hm. apply choose_is_candidate in Hm as [Hin _]. exact Hin.
  - intros Hm. apply choose_is_candidate in Hm as [Hin _]. exact Hin.
  - destruct (bool_decide _) eqn:Hin; intros [= <-].
    apply bool_decide_eq_true in Hin. apply in_names_In. exact Hin.
  - discriminate.
Qed.

(** X6. Cover resolution prefers the exact paths over the order of the
    archive: the first path of the preferred list that is in the archive is
    the cover, wherever it stands in the archive.  Only when none of them is
    in the archive does the first member that passes the fallback test
    become the cover, and there is no cover exactly when no preferred path
    is in the archive and no member passes the test. *)
Theorem cover_prefers_exact_paths (z : ZipFile) :
  (forall before p after,
      preferred_covers = before ++ p :: after ->
      In p (namelist z) ->
      (forall q, In q before -> ~ In q (namelist z)) ->
      find_cover_member z = Some p)
  /\ ((forall q, In q preferred_covers -> ~ In q (namelist z)) ->
      forall before m after,
        namelist z = before ++ m :: after ->
        cover_fallback m = true ->
        (forall n, In n before -> cover_fallback n = false) ->
        find_cover_member z = Some m)
  /\ (find_cover_member z = None <->
      (forall q, In q preferred_covers -> ~ In q (namelist z))
      /\ (forall n, In n (namelist z) -> cover_fallback n = false)).
Proof.
  assert (forall (f : string -> bool) before x after,
             f x = true -> (forall y, In y before -> f y = false) ->
             List.find f (before ++ x :: after) = Some x) as Hfirst.
  { intros f before x after Hx Hbefore.
    induction before as [|y before IH]; simpl.
    - rewrite Hx. reflexivity.
    - rewrite (Hbefore y) by (left; reflexivity).
      apply IH. intros y' Hy'. apply Hbefore. right. exact Hy'. }
  assert (forall q, bool_decide (q ∈ names_of z) = false <-> ~ In q (namelist z)) as Habsent.
  { intros q. rewrite bool_decide_eq_false, in_names_In. reflexivity. }
  assert ((forall q, In q preferred_covers -> ~ In q (namelist z)) ->
          List.find (fun p => bool_decide (p ∈ names_of z)) preferred_covers = None)
    as Hnone.
  { intros Hno. destruct (List.find _ preferred_covers) as [p|] eqn:Hpref; [|reflexivity].
    apply find_some in Hpref as [Hp Hin]. apply bool_decide_eq_true, in_names_In in Hin.
    destruct (Hno p Hp Hin). }
  rewrite find_cover_member_unfold.
  split; [|split].
  - intros before p after -> Hp Hbefore.
    rewrite (Hfirst (fun p => bool_decide (p ∈ names_of z))); [reflexivity| |].
    + apply bool_decide_eq_true, in_names_In. exact Hp.
    + intros q Hq. apply Habsent, Hbefore, Hq.
  - intros Hno before m after Hlist Hm Hbefore.
    rewrite (Hnone Hno), Hlist. apply Hfirst; assumption.
  - split.
    + destruct (List.find _ preferred_covers) as [p|] eqn:Hpref; [discriminate|].
      intros Hfind. split.
      * intros q Hq. apply Habsent. exact (find_none _ _ Hpref q Hq).
      * intros n Hn. exact (find_none _ _ Hfind n Hn).
    + intros [Hno Hfallback]. rewrite (Hnone Hno).
      destruct (List.find cover_fallback (namelist z)) as [n|] eqn:Hfind; [|reflexivity].
      apply find_some in Hfind as [Hn Hok]. rewrite (Hfallback n Hn) in Hok. discriminate.
Qed.

(** *** The cache of descriptors *)

Lemma get_track_info_fresh (self : PaionState) (aifm_path : Path) :
  info_cache self !! aifm_path = None ->
  (get_track_info self aifm_path).1 = (get_track_info fresh_state aifm_path).1.
Proof.
  intros Hmiss. unfold get_track_info. rewrite Hmiss.
  cbn [fresh_state info_cache]. rewrite lookup_empty. reflexivity.
Qed.

Lemma get_track_info_cache (self : PaionState) (aifm_path : Path) :
  info_cache self !! aifm_path = None ->
  info_cache (get_track_info self aifm_path).2
  = <[aifm_path := (get_track_info self aifm_path).1]> (info_cache self).
Proof. intros Hmiss. unfold get_track_info. rewrite Hmiss. reflexivity. Qed.

(** X7. Caching is transparent: in a state whose cached descriptors are the
    fresh ones, [get_track_info] answers the descriptor a fresh computation
    gives, whether the path is cached or not, and the state it leaves is
    again such a state. *)
Theorem cache_is_transparent (self : PaionState) (aifm_path : Path) :
  cache_valid self ->
  (get_track_info self aifm_path).1 = (get_track_info fresh_state aifm_path).1
  /\ cache_valid (get_track_info self aifm_path).2.
Proof.
  intros Hvalid.
  destruct (info_cache self !! aifm_path) as [info|] eqn:Hlook.
  - rewrite (get_track_info_hit _ _ _ Hlook). cbn [fst snd].
    split; [apply Hvalid; exact Hlook | exact Hvalid].
  - split; [apply get_track_info_fresh; exact Hlook|].
    intros q info. rewrite (get_track_info_cache _ _ Hlook).
    destruct (decide (aifm_path = q)) as [<-|Hne].
    + rewrite lookup_insert_eq. intros [= <-]. apply get_track_info_fresh. exact Hlook.
    + rewrite lookup_insert_ne by exact Hne. apply Hvalid.
Qed.

(** X8. [get_track_info] changes nothing but the cache entry of the path it
    is asked: the playlist and its version stay, the descriptor it answers
    is cached under the path, the entries of the other paths stay, and a
    second request for the path gets the same answer and changes nothing. *)
Theorem get_track_info_frame (self : PaionState) (aifm_path : Path) :
  let info := (get_track_info self aifm_path).1 in
  let self' := (get_track_info self aifm_path).2 in
  tracks self' = tracks self
  /\ playlist_version self' = playlist_version self
  /\ info_cache self' !! aifm_path = Some info
  /\ (forall q, q <> aifm_path -> info_cache self' !! q = info_cache self !! q)
  /\ get_track_info self' aifm_path = (info, self').
Proof.
  intros info self'. subst info self'.
  destruct (info_cache self !! aifm_path) as [cached|] eqn:Hlook.
  - rewrite (get_track_info_hit _ _ _ Hlook). cbn [fst snd].
    repeat split; [exact Hlook | apply get_track_info_hit; exact Hlook].
  - assert (info_cache (get_track_info self aifm_path).2 !! aifm_path
            = Some (get_track_info self aifm_path).1) as Hcached.
    { rewrite (get_track_info_cache _ _ Hlook). apply lookup_insert_eq. }
    split; [unfold get_track_info; rewrite Hlook; reflexivity|].
    split; [unfold get_track_info; rewrite Hlook; reflexivity|].
    split; [exact Hcached|].
    split.
    + intros q Hq. rewrite (get_track_info_cache _ _ Hlook).
      apply lookup_insert_ne. congruence.
    + apply get_track_info_hit. exact Hcached.
Qed.

(** X9. Loading a playlist and clearing it drop every cached descriptor and
    raise the version by one: whatever the cache held before, also a stale
    descriptor, the next request for any path is computed afresh. *)
Theorem reload_invalidates_cache (self : PaionState) (new_tracks : list Path)
    (aifm_path : Path) :
  (tracks (load_tracks self new_tracks) = new_tracks
   /\ playlist_version (load_tracks self new_tracks) = playlist_version self + 1
   /\ cache_valid (load_tracks self new_tracks)
   /\ (get_track_info (load_tracks self new_tracks) aifm_path).1
      = (get_track_info fresh_state aifm_path).1)
  /\ (tracks (clear self) = []
      /\ playlist_version (clear self) = playlist_version self + 1
      /\ cache_valid (clear self)
      /\ (get_track_info (clear self) aifm_path).1
         = (get_track_info fresh_state aifm_path).1).
Proof.
  assert (forall st, info_cache st = ∅ -> cache_valid st) as Hempty.
  { intros st Hst q info. rewrite Hst, lookup_empty. discriminate. }
  split; (split; [reflexivity|split; [reflexivity|split; [apply Hempty; reflexivity|]]]);
    apply get_track_info_fresh; apply lookup_empty.
Qed.

(** *** The verdict on a container *)

Lemma verify_entry_outcome (z : ZipFile) (st st' : verify_state) (relpath : string)
    (meta : value) :
  verify_entry z (names_of z) st relpath meta = Ok st' ->
  exists c,
    st' = push_check st c
    /\ path c = relpath
    /\ (ok c = true <-> entry_matches z (relpath, meta))
    /\ (ok c = true -> reason c = "").
Proof.
  unfold verify_entry, entry_matches. cbn [fst snd].
  destruct (bool_decide (relpath ∈ names_of z)) eqn:Hin; cbn [negb].
  - apply bool_decide_eq_true, in_names in Hin.
    destruct (read z relpath) as [data|e] eqn:Hread; cbn [bind]; [|discriminate].
    destruct (isinstance_int _ && int_ne _ _) eqn:Hsize.
    + intros [= <-]. eexists. split; [apply record_fail_push|].
      split; [reflexivity|]. split; [|discriminate]. split; [discriminate|].
      intros (_ & data' & [= <-] & Hsz & _).
      apply andb_true_iff in Hsize as [Hint Hne]. rewrite (Hsz Hint) in Hne. discriminate.
    + destruct (negb _ && negb _) eqn:Hdigest.
      * intros [= <-]. eexists. split; [apply record_fail_push|].
        split; [reflexivity|]. split; [|discriminate]. split; [discriminate|].
        intros (_ & data' & [= <-] & _ & Hd).
        apply andb_true_iff in Hdigest as [Hdeclared Hdiffers].
        apply negb_true_iff, String.eqb_neq in Hdeclared.
        apply negb_true_iff, String.eqb_neq in Hdiffers.
        destruct (Hdiffers (Hd Hdeclared)).
      * intros [= <-]. eexists. split; [apply append_check_push|].
        split; [reflexivity|]. split; [|reflexivity]. split; [intros _|reflexivity].
        split; [exact Hin|]. exists data. split; [reflexivity|]. split.
        -- intros Hint. rewrite Hint in Hsize. exact Hsize.
        -- intros Hdeclared. apply andb_false_iff in Hdigest as [H|H];
             apply negb_false_iff, String.eqb_eq in H; [contradiction | exact H].
  - apply bool_decide_eq_false in Hin. intros [= <-].
    eexists. split; [apply record_fail_push|].
    split; [reflexivity|]. split; [|discriminate]. split; [discriminate|].
    intros (Hmem & _). destruct (Hin (proj2 (in_names _ _) Hmem)).
Qed.

Lemma verify_entries_outcome (z : ZipFile) (items : dict) :
  forall st st',
    verify_entries z (names_of z) items st = Ok st' ->
    exists cs,
      st' = fold_left push_check cs st
      /\ Forall2 (fun item c =>
                    path c = item.1
                    /\ (ok c = true <-> entry_matches z item)
                    /\ (ok c = true -> reason c = ""))
                 items cs.
Proof.
  induction items as [|[relpath meta] items IH]; intros st st'; simpl.
  - intros [= <-]. exists []. split; [reflexivity|constructor].
  - destruct (verify_entry z (names_of z) st relpath meta) as [st1|e] eqn:E;
      cbn [bind]; [|discriminate].
    destruct (verify_entry_outcome _ _ _ _ _ E) as (c & -> & Hc).
    intros Hrun. destruct (IH _ _ Hrun) as (cs & -> & Hall).
    exists (c :: cs). split; [reflexivity|]. constructor; assumption.
Qed.

Lemma entry_matches_readable (z : ZipFile) (item : string * value) :
  entry_matches z item -> exists data, read z item.1 = Ok data.
Proof. intros (_ & data & Hread & _). eauto. Qed.

Lemma non_manifest_flag_fold (cs : list BuiltinCheck) (st : verify_state) :
  non_manifest_failed (fold_left push_check cs st)
  = non_manifest_failed st
    || existsb (fun c => negb (ok c) && negb (String.eqb (path c) "manifest.json")) cs.
Proof.
  revert st. induction cs as [|c cs IH]; intros st; simpl.
  - rewrite orb_false_r. reflexivity.
  - rewrite IH. simpl. rewrite orb_assoc. reflexivity.
Qed.

Lemma all_passed_no_flag (items : dict) :
  existsb (fun c => negb (ok c) && negb (String.eqb (path c) "manifest.json"))
          (map passed_check items) = false.
Proof. induction items as [|item items IH]; [reflexivity | exact IH]. Qed.

(** The result of the built-in verifier once the preconditions hold: the
    loop decides. *)
Lemma builtin_runs_loop (aifm_path : Path) (z : ZipFile) (raw : bytes) (m : value)
    (integ items : dict) :
  ZipFile_open aifm_path = Ok z ->
  "manifest.json" ∈ namelist z ->
  read z "manifest.json" = Ok raw ->
  json_loads raw = Ok m ->
  manifest_integrity m = VDict integ ->
  Str.lower (py_str (dict_get integ "algorithm" (VStr "sha256"))) = "sha256" ->
  dict_lookup integ "hashed_files" = Some (VDict items) ->
  items <> [] ->
  builtin_verify_aifm aifm_path
  = match verify_entries z (names_of z) items initial_state with
    | Ok st => (negb (non_manifest_failed st), checks st)
    | Raise e => (false, [{| ok := false; path := "builtin_verify"; reason := e |}])
    end.
Proof.
  intros Hopen Hin Hread Hparse Hinteg Halgo Hhf Hne.
  enter_try Hopen Hin Hread Hparse. rewrite Hinteg. cbn [attr_get bind].
  rewrite Halgo. cbn [String.eqb Ascii.eqb Bool.eqb negb].
  unfold dict_get at 1. rewrite Hhf.
  destruct items as [|item items']; [contradiction|]. cbv beta iota.
  destruct (verify_entries _ _ _ _) as [st|e]; cbn [bind]; [|reflexivity].
  destruct (non_manifest_failed st); [|destruct (manifest_failed st)]; reflexivity.
Qed.

Lemma track_verify_builtin (aifm_path : Path) (b : bool) (cs : list BuiltinCheck) :
  VERIFY_FN = None ->
  builtin_verify_aifm aifm_path = (b, cs) ->
  track_verify aifm_path
  = {| verify_ok := (normalize_verify (map (fun c => detail (ok c) (path c) (reason c)) cs) b).1.1;
       status := (normalize_verify (map (fun c => detail (ok c) (path c) (reason c)) cs) b).1.2;
       details := map (fun c => detail (ok c) (path c) (reason c)) cs;
       available := true; engine := "builtin" |}.
Proof.
  intros Hnone Hrun. unfold track_verify. rewrite Hnone, Hrun.
  destruct (normalize_verify _ b) as [[norm_ok status_] warn]. reflexivity.
Qed.

(** X10. An intact container verifies as intact: when the preconditions
    hold and every declared entry matches the archive, the built-in
    verifier says ok with one passing check per entry, and the outcome is
    ok with status [INTACT]. *)
Theorem intact_container_is_intact (aifm_path : Path) (z : ZipFile) (raw : bytes)
    (m : value) (integ items : dict) :
  VERIFY_FN = None ->
  ZipFile_open aifm_path = Ok z ->
  "manifest.json" ∈ namelist z ->
  read z "manifest.json" = Ok raw ->
  json_loads raw = Ok m ->
  manifest_integrity m = VDict integ ->
  Str.lower (py_str (dict_get integ "algorithm" (VStr "sha256"))) = "sha256" ->
  dict_lookup integ "hashed_files" = Some (VDict items) ->
  items <> [] ->
  Forall (entry_matches z) items ->
  builtin_verify_aifm aifm_path = (true, map passed_check items)
  /\ track_verify aifm_path
     = {| verify_ok := true; status := "INTACT";
          details := map (fun item => detail true item.1 "") items;
          available := true; engine := "builtin" |}.
Proof.
  intros Hnone Hopen Hin Hread Hparse Hinteg Halgo Hhf Hne Hall.
  assert (builtin_verify_aifm aifm_path = (true, map passed_check items)) as Hrun.
  { rewrite (builtin_runs_loop _ _ _ _ _ _ Hopen Hin Hread Hparse Hinteg Halgo Hhf Hne).
    destruct (verify_entries_push z (names_of z) items) with (st := initial_state)
      as (cs0 & Hloop & _).
    { intros relpath meta Hitem _. rewrite Forall_forall in Hall.
      apply (entry_matches_readable z (relpath, meta)), Hall, list_elem_of_In, Hitem. }
    rewrite Hloop.
    destruct (verify_entries_outcome _ _ _ _ Hloop) as (cs & -> & Hchecks).
    assert (cs = map passed_check items) as ->.
    { clear -Hall Hchecks. induction Hchecks as [|item c items cs (Hp & Hok & Hr) _ IH].
      - reflexivity.
      - apply Forall_cons in Hall as [Hitem Hall]. simpl. rewrite (IH Hall). f_equal.
        apply Hok in Hitem as Hc. specialize (Hr Hc).
        destruct c. unfold passed_check. simpl in *. congruence. }
    rewrite non_manifest_flag_fold, checks_fold_push, all_passed_no_flag. reflexivity. }
  split; [exact Hrun|].
  rewrite (track_verify_builtin _ _ _ Hnone Hrun). rewrite map_map. cbn [passed_check ok path reason].
  rewrite normalize_no_fail; [reflexivity|].
  intros d Hd. apply in_map_iff in Hd as (item & <- & _). reflexivity.
Qed.

Lemma Forall2_In_l {A B : Type} (R : A -> B -> Prop) (l : list A) (k : list B) (x : A) :
  Forall2 R l k -> In x l -> exists y, In y k /\ R x y.
Proof.
  induction 1 as [|a b l k Hab _ IH]; intros Hx; [destruct Hx|].
  destruct Hx as [<- | Hx].
  - exists b. split; [left; reflexivity | exact Hab].
  - destruct (IH Hx) as (y & Hy & Hxy). exists y. split; [right; exact Hy | exact Hxy].
Qed.

Lemma Forall2_In_r {A B : Type} (R : A -> B -> Prop) (l : list A) (k : list B) (y : B) :
  Forall2 R l k -> In y k -> exists x, In x l /\ R x y.
Proof.
  induction 1 as [|a b l k Hab _ IH]; intros Hy; [destruct Hy|].
  destruct Hy as [<- | Hy].
  - exists a. split; [left; reflexivity | exact Hab].
  - destruct (IH Hy) as (x & Hx & Hxy). exists x. split; [right; exact Hx | exact Hxy].
Qed.

Lemma track_verify_tampered (aifm_path : Path) (b : bool) (cs : list BuiltinCheck)
    (c : BuiltinCheck) :
  VERIFY_FN = None ->
  builtin_verify_aifm aifm_path = (b, cs) ->
  In c cs -> ok c = false -> path c <> "manifest.json" ->
  verify_ok (track_verify aifm_path) = false
  /\ status (track_verify aifm_path) = "TAMPERED".
Proof.
  intros Hnone Hrun Hc Hok Hpath.
  rewrite (track_verify_builtin _ _ _ Hnone Hrun). cbn [verify_ok status].
  rewrite (normalize_non_manifest_fail _ _ (detail (ok c) (path c) (reason c))).
  - split; reflexivity.
  - apply in_map_iff. exists c. split; [reflexivity | exact Hc].
  - rewrite detail_fails_detail, Hok. reflexivity.
  - rewrite detail_path_detail. exact Hpath.
Qed.

(** X11. A declared entry other than [manifest.json] that does not match
    the archive (its member is missing or cannot be read, or its size or
    digest differs) makes the outcome not ok with status [TAMPERED],
    whatever the other entries are. *)
Theorem mismatching_entry_is_tampered (aifm_path : Path) (z : ZipFile) (raw : bytes)
    (m : value) (integ items : dict) (item : string * value) :
  VERIFY_FN = None ->
  ZipFile_open aifm_path = Ok z ->
  "manifest.json" ∈ namelist z ->
  read z "manifest.json" = Ok raw ->
  json_loads raw = Ok m ->
  manifest_integrity m = VDict integ ->
  Str.lower (py_str (dict_get integ "algorithm" (VStr "sha256"))) = "sha256" ->
  dict_lookup integ "hashed_files" = Some (VDict items) ->
  In item items ->
  item.1 <> "manifest.json" ->
  ~ entry_matches z item ->
  verify_ok (track_verify aifm_path) = false
  /\ status (track_verify aifm_path) = "TAMPERED".
Proof.
  intros Hnone Hopen Hin Hread Hparse Hinteg Halgo Hhf Hitem Hkey Hbad.
  assert (items <> []) as Hne by (intros ->; destruct Hitem).
  pose proof (builtin_runs_loop _ _ _ _ _ _ Hopen Hin Hread Hparse Hinteg Halgo Hhf Hne)
    as Hrun.
  destruct (verify_entries z (names_of z) items initial_state) as [st|e] eqn:Hloop.
  - destruct (verify_entries_outcome _ _ _ _ Hloop) as (cs & -> & Hchecks).
    destruct (Forall2_In_l _ _ _ _ Hchecks Hitem) as (c & Hc & Hp & Hok & _).
    apply (track_verify_tampered _ _ _ c Hnone Hrun).
    + rewrite checks_fold_push. exact Hc.
    + destruct (ok c) eqn:Hokc; [|reflexivity]. destruct (Hbad (proj1 Hok eq_refl)).
    + rewrite Hp. exact Hkey.
  - apply (track_verify_tampered _ _ _
             {| ok := false; path := "builtin_verify"; reason := e |} Hnone Hrun);
      [left; reflexivity | reflexivity | discriminate].
Qed.

(** X12. When the only declared entries that do not match the archive are
    keyed [manifest.json], the container is accepted with a warning: the
    built-in verifier says ok, and the outcome is ok with status
    [INTACT (MANIFEST WARN)]. *)
Theorem manifest_only_mismatch_is_warning (aifm_path : Path) (z : ZipFile) (raw : bytes)
    (m : value) (integ items : dict) (meta : value) :
  VERIFY_FN = None ->
  ZipFile_open aifm_path = Ok z ->
  "manifest.json" ∈ namelist z ->
  read z "manifest.json" = Ok raw ->
  json_loads raw = Ok m ->
  manifest_integrity m = VDict integ ->
  Str.lower (py_str (dict_get integ "algorithm" (VStr "sha256"))) = "sha256" ->
  dict_lookup integ "hashed_files" = Some (VDict items) ->
  In ("manifest.json", meta) items ->
  ~ entry_matches z ("manifest.json", meta) ->
  (forall item, In item items -> item.1 <> "manifest.json" -> entry_matches z item) ->
  (builtin_verify_aifm aifm_path).1 = true
  /\ verify_ok (track_verify aifm_path) = true
  /\ status (track_verify aifm_path) = "INTACT (MANIFEST WARN)".
Proof.
  intros Hnone Hopen Hin Hread Hparse Hinteg Halgo Hhf Hitem Hbad Hothers.
  assert (items <> []) as Hne by (intros ->; destruct Hitem).
  pose proof (builtin_runs_loop _ _ _ _ _ _ Hopen Hin Hread Hparse Hinteg Halgo Hhf Hne)
    as Hrun.
  destruct (verify_entries_push z (names_of z) items) with (st := initial_state)
    as (cs0 & Hloop & _).
  { intros relpath meta' Hi _.
    destruct (String.eqb relpath "manifest.json") eqn:Hkey.
    - apply String.eqb_eq in Hkey as ->. eauto.
    - apply String.eqb_neq in Hkey.
      apply (entry_matches_readable z (relpath, meta')), Hothers; assumption. }
  rewrite Hloop in Hrun.
  destruct (verify_entries_outcome _ _ _ _ Hloop) as (cs & Hfold & Hchecks).
  rewrite Hfold in Hrun. rewrite non_manifest_flag_fold, checks_fold_push in Hrun.
  cbn [initial_state non_manifest_failed checks orb app] in Hrun.
  assert (forall c, In c cs -> ok c = false -> path c = "manifest.json") as Hkeys.
  { intros c Hc Hok. destruct (Forall2_In_r _ _ _ _ Hchecks Hc) as (it & Hit & Hp & Hiff & _).
    rewrite Hp. destruct (String.eqb it.1 "manifest.json") eqn:Hkey.
    - apply String.eqb_eq. exact Hkey.
    - apply String.eqb_neq in Hkey. apply (Hothers it Hit), Hiff in Hkey. congruence. }
  assert (existsb (fun c => negb (ok c) && negb (String.eqb (path c) "manifest.json")) cs
          = false) as Hflag.
  { destruct (existsb _ cs) eqn:Hex; [|reflexivity].
    apply existsb_exists in Hex as (c & Hc & Hcond).
    apply andb_true_iff in Hcond as [Hok Hp].
    apply negb_true_iff in Hok. apply negb_true_iff, String.eqb_neq in Hp.
    destruct (Hp (Hkeys c Hc Hok)). }
  rewrite Hflag in Hrun. cbn [negb] in Hrun.
  split; [rewrite Hrun; reflexivity|].
  rewrite (track_verify_builtin _ _ _ Hnone Hrun). cbn [verify_ok status].
  destruct (Forall2_In_l _ _ _ _ Hchecks Hitem) as (c & Hc & Hp & Hiff & _).
  assert (ok c = false) as Hok.
  { destruct (ok c); [|reflexivity]. destruct (Hbad (proj1 Hiff eq_refl)). }
  rewrite (normalize_manifest_only _ _ (detail (ok c) (path c) (reason c))).
  - split; reflexivity.
  - apply in_map_iff. exists c. split; [reflexivity | exact Hc].
  - rewrite detail_fails_detail, Hok. reflexivity.
  - intros d Hd Hfails. apply in_map_iff in Hd as (c' & <- & Hc').
    rewrite detail_fails_detail in Hfails. apply negb_true_iff in Hfails.
    rewrite detail_path_detail. apply Hkeys; assumption.
Qed.

(** X13. A container that opens and has no [manifest.json] is accepted with
    a warning: the built-in verifier says not ok with the single check
    [manifest.json / missing manifest.json], and because that check is
    keyed [manifest.json] the outcome is ok with status
    [INTACT (MANIFEST WARN)]. *)
Theorem missing_manifest_is_warning (aifm_path : Path) (z : ZipFile) :
  VERIFY_FN = None ->
  ZipFile_open aifm_path = Ok z ->
  "manifest.json" ∉ namelist z ->
  (builtin_verify_aifm aifm_path).1 = false
  /\ track_verify aifm_path
     = {| verify_ok := true; status := "INTACT (MANIFEST WARN)";
          details := [detail false "manifest.json" "missing manifest.json"];
          available := true; engine := "builtin" |}.
Proof.
  intros Hnone Hopen Hnotin.
  pose proof (builtin_missing_manifest _ _ Hopen Hnotin) as Hrun.
  split; [rewrite Hrun; reflexivity|].
  rewrite (track_verify_builtin _ _ _ Hnone Hrun). reflexivity.
Qed.

(** *** Normalization *)

Lemma existsb_false_In {A : Type} (f : A -> bool) (l : list A) :
  existsb f l = false -> forall x, In x l -> f x = false.
Proof.
  intros Hnone x Hx. destruct (f x) eqn:Hfx; [|reflexivity].
  rewrite <- Hnone. symmetry. apply existsb_exists. eauto.
Qed.

Lemma normalize_verify_decides (details : list dict) (original_ok : bool) :
  normalize_verify details original_ok
  = if any_failure details then
      if any_non_manifest_failure details then (false, "TAMPERED", false)
      else (true, "INTACT (MANIFEST WARN)", true)
    else (original_ok, if original_ok then "INTACT" else "TAMPERED", false).
Proof.
  unfold any_failure, any_non_manifest_failure.
  destruct (existsb detail_fails details) eqn:Hany.
  - apply existsb_exists in Hany as (d & Hd & Hfails).
    destruct (existsb _ details) eqn:Hnm.
    + apply existsb_exists in Hnm as (d' & Hd' & Hcond).
      apply andb_true_iff in Hcond as [Hf Hp].
      apply negb_true_iff, String.eqb_neq in Hp.
      apply (normalize_non_manifest_fail _ _ d'); assumption.
    + apply (normalize_manifest_only _ _ d); [assumption..|].
      intros f Hf Hffails.
      pose proof (existsb_false_In _ _ Hnm f Hf) as Hcond. cbv beta in Hcond.
      rewrite Hffails in Hcond. cbn [andb] in Hcond.
      apply negb_false_iff, String.eqb_eq in Hcond. exact Hcond.
  - apply normalize_no_fail. apply existsb_false_In. exact Hany.
Qed.

Lemma existsb_Permutation {A : Type} (f : A -> bool) (l l' : list A) :
  l ≡ₚ l' -> existsb f l = existsb f l'.
Proof.
  induction 1 as [|x l l' _ IH|x y l|l l' l'' _ IH1 _ IH2]; simpl.
  - reflexivity.
  - rewrite IH. reflexivity.
  - destruct (f x), (f y); reflexivity.
  - congruence.
Qed.

(** X14. The outcome does not depend on the order of the checks nor on the
    checks that pass: a list with the same checks in another order, with
    passing checks added, normalizes to the same outcome. *)
Theorem normalize_ignores_order_and_passes (details details' extra : list dict)
    (original_ok : bool) :
  details ≡ₚ details' ->
  Forall (fun d => detail_fails d = false) extra ->
  normalize_verify (details' ++ extra) original_ok = normalize_verify details original_ok.
Proof.
  intros Hperm Hextra. rewrite !normalize_verify_decides.
  unfold any_failure, any_non_manifest_failure. rewrite !existsb_app.
  rewrite <- !(existsb_Permutation _ _ _ Hperm).
  assert (existsb detail_fails extra = false) as ->.
  { induction Hextra as [|d extra Hd _ IH]; simpl; [reflexivity|]. rewrite Hd. exact IH. }
  assert (existsb (fun d => detail_fails d && negb (String.eqb (detail_path d) "manifest.json"))
                  extra = false) as ->.
  { induction Hextra as [|d extra Hd _ IH]; simpl; [reflexivity|]. rewrite Hd. exact IH. }
  rewrite !orb_false_r. reflexivity.
Qed.

(** X15. The three parts of a normalized outcome always agree: the status is
    one of [INTACT], [INTACT (MANIFEST WARN)] and [TAMPERED]; the outcome is
    not ok exactly when the status is [TAMPERED]; and the warning flag is up
    exactly when the status is [INTACT (MANIFEST WARN)]. *)
Theorem normalized_outcome_is_coherent (details : list dict) (original_ok : bool) :
  let ok_ := (normalize_verify details original_ok).1.1 in
  let status_ := (normalize_verify details original_ok).1.2 in
  let warn := (normalize_verify details original_ok).2 in
  In status_ ["INTACT"; "INTACT (MANIFEST WARN)"; "TAMPERED"]
  /\ (ok_ = false <-> status_ = "TAMPERED")
  /\ (warn = true <-> status_ = "INTACT (MANIFEST WARN)").
Proof.
  rewrite normalize_verify_decides.
  destruct (any_failure details); [destruct (any_non_manifest_failure details)|
                                   destruct original_ok];
    cbn; repeat split; auto; discriminate.
Qed.

(** *** The verdict of the built-in verifier and the status of the outcome *)

(** The shapes of a result of the built-in verifier: a single failing check
    with the verdict not ok, or the checks of a completed loop. *)
Lemma builtin_result_shape (aifm_path : Path) :
  (exists c, builtin_verify_aifm aifm_path = (false, [c]) /\ ok c = false)
  \/ (exists z item items st,
         verify_entries z (names_of z) (item :: items) initial_state = Ok st
         /\ builtin_verify_aifm aifm_path = (negb (non_manifest_failed st), checks st)).
Proof.
  unfold builtin_verify_aifm, builtin_verify_try.
  destruct (ZipFile_open aifm_path) as [z|e]; cbn [bind]; [|left; eauto].
  destruct (bool_decide _); cbn [negb]; [|left; eauto].
  destruct (read z "manifest.json") as [raw|e]; cbn [bind]; [|left; eauto].
  destruct (json_loads raw) as [m|e]; cbn [bind]; [|left; eauto].
  destruct (attr_get _ "algorithm" _) as [algo|e]; cbn [bind]; [|left; eauto].
  destruct (attr_get _ "hashed_files" _) as [hf|e]; cbn [bind]; [|left; eauto].
  destruct (negb _); [left; eauto|].
  destruct hf as [| | | | | |[|item items]]; try (left; eauto; fail).
  destruct (verify_entries _ _ _ _) as [st|e] eqn:Hrun; cbn [bind]; [|left; eauto].
  right. exists z, item, items, st. split; [exact Hrun|].
  destruct (non_manifest_failed st); [|destruct (manifest_failed st)]; reflexivity.
Qed.

(** X16. The built-in verifier always returns at least one check, and it
    says ok only when every failing check is keyed [manifest.json]; the
    outcome is then ok as well: normalization never turns an ok of the
    built-in verifier into a failure. *)
Theorem builtin_ok_is_kept (aifm_path : Path) :
  (builtin_verify_aifm aifm_path).2 <> []
  /\ ((builtin_verify_aifm aifm_path).1 = true ->
      Forall (fun c => ok c = false -> path c = "manifest.json")
             (builtin_verify_aifm aifm_path).2)
  /\ (VERIFY_FN = None ->
      (builtin_verify_aifm aifm_path).1 = true ->
      verify_ok (track_verify aifm_path) = true).
Proof.
  assert ((builtin_verify_aifm aifm_path).1 = true ->
          Forall (fun c => ok c = false -> path c = "manifest.json")
                 (builtin_verify_aifm aifm_path).2) as Hkeys.
  { destruct (builtin_result_shape aifm_path)
      as [(c & -> & _) | (z & item & items & st & Hloop & ->)]; [discriminate|].
    cbn [fst snd]. intros Hflag. apply negb_true_iff in Hflag.
    destruct (verify_entries_outcome _ _ _ _ Hloop) as (cs & -> & _).
    rewrite non_manifest_flag_fold in Hflag. rewrite checks_fold_push.
    cbn [initial_state non_manifest_failed checks orb app] in *.
    apply Forall_forall. intros c Hc Hok.
    pose proof (existsb_false_In _ _ Hflag c (proj1 (list_elem_of_In _ _) Hc)) as Hcond.
    cbv beta in Hcond. rewrite Hok in Hcond. cbn [negb andb] in Hcond.
    apply negb_false_iff, String.eqb_eq in Hcond. exact Hcond. }
  split; [|split; [exact Hkeys|]].
  - destruct (builtin_result_shape aifm_path)
      as [(c & -> & _) | (z & item & items & st & Hloop & ->)]; [discriminate|].
    cbn [snd]. destruct (verify_entries_outcome _ _ _ _ Hloop) as (cs & -> & Hall).
    rewrite checks_fold_push. cbn [initial_state checks app].
    inversion Hall. discriminate.
  - intros Hnone Hok. specialize (Hkeys Hok).
    destruct (builtin_verify_aifm aifm_path) as [b cs] eqn:Hrun. cbn [fst snd] in *.
    subst b. rewrite (track_verify_builtin _ _ _ Hnone Hrun). cbn [verify_ok].
    rewrite normalize_verify_decides.
    destruct (any_failure _); [|reflexivity].
    destruct (any_non_manifest_failure _) eqn:Hnm; [|reflexivity].
    apply existsb_exists in Hnm as (d & Hd & Hcond).
    apply in_map_iff in Hd as (c & <- & Hc).
    rewrite detail_fails_detail, detail_path_detail in Hcond.
    apply andb_true_iff in Hcond as [Hfails Hp].
    apply negb_true_iff in Hfails. apply negb_true_iff, String.eqb_neq in Hp.
    rewrite Forall_forall in Hkeys.
    destruct (Hp (Hkeys c (proj2 (list_elem_of_In _ _) Hc) Hfails)).
Qed.

(** X17. The verification entry of a computed descriptor is always
    available, and its status is one of [INTACT], [INTACT (MANIFEST WARN)],
    [TAMPERED] and [ERROR]: the initial [UNKNOWN] is never what a caller
    sees.  It is ok exactly when the status is one of the two [INTACT]
    ones, and [ERROR] is a status of the external verifier only. *)
Theorem verify_status_is_never_unknown (aifm_path : Path) :
  let v := track_verify aifm_path in
  available v = true
  /\ In (status v) ["INTACT"; "INTACT (MANIFEST WARN)"; "TAMPERED"; "ERROR"]
  /\ (verify_ok v = true <-> status v = "INTACT" \/ status v = "INTACT (MANIFEST WARN)")
  /\ (VERIFY_FN = None -> status v <> "ERROR" /\ engine v = "builtin")
  /\ (VERIFY_FN <> None -> engine v = "verify_aifm.py").
Proof.
  clear unicode_lower.
  assert (forall details b e_,
             let n := normalize_verify details b in
             let v := {| verify_ok := n.1.1; status := n.1.2; details := details;
                         available := true; engine := e_ |} in
             available v = true
             /\ In (status v) ["INTACT"; "INTACT (MANIFEST WARN)"; "TAMPERED"; "ERROR"]
             /\ (verify_ok v = true
                 <-> status v = "INTACT" \/ status v = "INTACT (MANIFEST WARN)")
             /\ status v <> "ERROR") as Hnorm.
  { intros details b e_ n v. subst n v. cbn [available status verify_ok].
    rewrite normalize_verify_decides.
    destruct (any_failure details); [destruct (any_non_manifest_failure details)|destruct b];
      cbn; (split; [reflexivity|split; [tauto|split; [|discriminate]]]);
      split; first [discriminate | tauto | intros [H|H]; discriminate H]. }
  intros v. subst v. unfold track_verify.
  destruct VERIFY_FN as [verify_fn|] eqn:Hfn.
  - unfold external_verify_try.
    destruct (verify_fn aifm_path) as [[ok_ results]|e]; cbn [bind].
    + match goal with
      | |- context [normalize_verify ?d ?b] =>
          specialize (Hnorm d b "verify_aifm.py"); destruct (normalize_verify d b) as [[o s_] w]
      end.
      cbn in Hnorm |- *. destruct Hnorm as (Ha & Hs & Hiff & Hne).
      repeat split; try tauto; try discriminate.
    + cbn. repeat split; try tauto; try discriminate.
      intros [H|H]; discriminate H.
  - destruct (builtin_verify_aifm aifm_path) as [b cs].
    match goal with
    | |- context [normalize_verify ?d ?b] =>
        specialize (Hnorm d b "builtin"); destruct (normalize_verify d b) as [[o s_] w]
    end.
    cbn in Hnorm |- *. destruct Hnorm as (Ha & Hs & Hiff & Hne).
    repeat split; try tauto; try discriminate.
Qed.

(** *** Dotted paths *)

Lemma split_first (sep : ascii) (s : string) :
  exists p rest, Str.split sep s = p :: rest.
Proof.
  induction s as [|c s (p & rest & IH)]; simpl; [eauto|].
  destruct (Ascii.eqb c sep); [eauto|]. rewrite IH. eauto.
Qed.

Lemma split_dotless (k : string) : dotless k = true -> Str.split "." k = [k].
Proof.
  induction k as [|c k IH]; simpl; [reflexivity|].
  intros Hk. apply andb_true_iff in Hk as [Hc Hk]. apply negb_true_iff in Hc.
  rewrite Hc, (IH Hk). reflexivity.
Qed.

Lemma split_dotted_path (k rest : string) :
  dotless k = true -> Str.split "." (k +:+ "." +:+ rest) = k :: Str.split "." rest.
Proof.
  induction k as [|c k IH]; simpl; [reflexivity|].
  intros Hk. apply andb_true_iff in Hk as [Hc Hk]. apply negb_true_iff in Hc.
  rewrite Hc, (IH Hk). reflexivity.
Qed.

Lemma split_first_shorter (k : string) :
  dotless k = false ->
  exists p rest, Str.split "." k = p :: rest /\ (String.length p < String.length k)%nat.
Proof.
  induction k as [|c k IH]; simpl; [discriminate|].
  destruct (Ascii.eqb c ".") eqn:Hc; cbn [negb andb].
  - intros _. exists "", (Str.split "." k). split; [reflexivity | simpl; lia].
  - intros Hk. destruct (IH Hk) as (p & rest & -> & Hlen).
    exists (String c p), rest. split; [reflexivity | simpl; lia].
Qed.

Lemma safe_get_nothing (m : value) (dotted : string) (default : value) :
  isinstance_dict m = false \/ m = VDict [] ->
  safe_get m dotted default = default.
Proof.
  intros Hm. unfold safe_get.
  destruct (split_first "." dotted) as (part & rest & ->).
  destruct Hm as [Hm | ->]; [|reflexivity].
  destruct m; try reflexivity. discriminate Hm.
Qed.

(** X18. [safe_get] follows a dotted path key by key: a key without a dot
    is looked up in the mapping, and a path [k.rest] whose first key has no
    dot continues with [rest] in the value found under [k]; a missing key
    gives the default.  So the value stored under nested keys without dots
    is found again by the path that joins the keys with dots. *)
Theorem safe_get_follows_path (d : dict) (k : string) (default : value) :
  dotless k = true ->
  safe_get (VDict d) k default
  = match dict_lookup d k with Some v => v | None => default end
  /\ (forall rest,
         safe_get (VDict d) (k +:+ "." +:+ rest) default
         = match dict_lookup d k with
           | Some v => safe_get v rest default
           | None => default
           end)
  /\ (forall ks v,
         Forall (fun k' => dotless k' = true) ks ->
         safe_get (nest (k :: ks) v) (join_dots (k :: ks)) default = v).
Proof.
  intros Hk. split; [|split].
  - unfold safe_get. rewrite (split_dotless _ Hk). simpl.
    destruct (dict_lookup d k); reflexivity.
  - intros rest. unfold safe_get. rewrite (split_dotted_path _ _ Hk). reflexivity.
  - intros ks. revert k Hk. induction ks as [|k' ks IH]; intros k Hk v Hks.
    + unfold safe_get. simpl. rewrite (split_dotless _ Hk). simpl.
      rewrite String.eqb_refl. reflexivity.
    + apply Forall_cons in Hks as [Hk' Hks].
      change (join_dots (k :: k' :: ks)) with (k +:+ "." +:+ join_dots (k' :: ks)).
      unfold safe_get. rewrite (split_dotted_path _ _ Hk).
      cbn [nest safe_get_parts dict_lookup]. rewrite String.eqb_refl.
      apply (IH k' Hk' v Hks).
Qed.

(** X19. What [safe_get] cannot reach.  On a document that is not a mapping
    every path gives the default, the empty path too (it does not give the
    document itself); and a key that has a dot in it is out of reach: the
    mapping that holds a value under such a key alone gives the default for
    that key. *)
Theorem safe_get_out_of_reach (default : value) :
  (forall doc dotted, isinstance_dict doc = false -> safe_get doc dotted default = default)
  /\ (forall doc, safe_get doc "" default
                  = match doc with
                    | VDict d => match dict_lookup d "" with Some v => v | None => default end
                    | _ => default
                    end)
  /\ (forall k v, dotless k = false -> safe_get (VDict [(k, v)]) k default = default).
Proof.
  split; [|split].
  - intros doc dotted Hdoc. apply safe_get_nothing. left. exact Hdoc.
  - intros doc. destruct doc; reflexivity.
  - intros k v Hk. unfold safe_get.
    destruct (split_first_shorter k Hk) as (p & rest & -> & Hlen).
    cbn [safe_get_parts dict_lookup].
    assert (String.eqb k p = false) as ->; [|reflexivity].
    apply String.eqb_neq. intros ->. lia.
Qed.

Lemma track_fields_nothing (m : value) :
  isinstance_dict m = false \/ m = VDict [] -> track_fields m = placeholder_fields.
Proof.
  intros Hm. unfold track_fields, author_value, ai_system_value, tier_value, mode_value,
    origin_url_value.
  rewrite !(safe_get_nothing m _ VNone Hm). reflexivity.
Qed.

(** X20. Metadata extraction never fails: when the manifest gives nothing
    (the archive does not open, it has no [manifest.json], the member cannot
    be read or parsed, or what is parsed is not a mapping or is empty), the
    fields of the descriptor are the placeholders, a dash for the author,
    the AI system, the tier and the mode, and the empty string for the
    origin URL. *)
Theorem unusable_manifest_gives_placeholders (self : PaionState) (aifm_path : Path) :
  info_cache self !! aifm_path = None ->
  manifest_unusable aifm_path ->
  fields (get_track_info self aifm_path).1 = placeholder_fields.
Proof.
  intros Hmiss Hbad. unfold get_track_info. rewrite Hmiss. cbn [fst fields].
  unfold manifest_unusable in Hbad. unfold read_manifest_from_aifm.
  destruct (ZipFile_open aifm_path) as [z|e]; cbn [bind];
    [|apply track_fields_nothing; right; reflexivity].
  destruct (bool_decide ("manifest.json" ∈ namelist z)) eqn:Hin; cbn [negb];
    [|apply track_fields_nothing; right; reflexivity].
  apply bool_decide_eq_true in Hin.
  destruct Hbad as [Hnotin | Hbad]; [destruct (Hnotin Hin)|].
  destruct (read z "manifest.json") as [raw|e]; cbn [bind];
    [|apply track_fields_nothing; right; reflexivity].
  destruct (json_loads raw) as [m|e];
    [|apply track_fields_nothing; right; reflexivity].
  apply track_fields_nothing. exact Hbad.
Qed.

(** *** The routes *)

Lemma valid_descriptor (self : PaionState) (aifm_path : Path) :
  cache_valid self ->
  (get_track_info self aifm_path).1 = (get_track_info fresh_state aifm_path).1.
Proof.
  intros Hvalid. destruct (info_cache self !! aifm_path) as [info|] eqn:Hlook.
  - rewrite (get_track_info_hit _ _ _ Hlook). apply Hvalid. exact Hlook.
  - apply get_track_info_fresh. exact Hlook.
Qed.

Lemma fresh_assets (aifm_path : Path) :
  assets (get_track_info fresh_state aifm_path).1 = track_assets aifm_path.
Proof.
  unfold get_track_info. cbn [fresh_state info_cache]. rewrite lookup_empty. reflexivity.
Qed.

Lemma track_asset_member (z : ZipFile) (k : string) (default : Asset) :
  member default = "" ->
  member (track_asset z k default) <> "" ->
  pick_asset_member z k = Some (member (track_asset z k default)).
Proof.
  intros Hdefault. unfold track_asset.
  destruct (pick_asset_member z k) as [m|]; [|intros Hne; destruct (Hne Hdefault)].
  destruct (String.eqb m ""); [intros Hne; destruct (Hne Hdefault)|]. reflexivity.
Qed.

Lemma send_member_file (aifm : Path) (member_ : string) (r : Response) :
  send_member aifm member_ = Ok r ->
  exists z data,
    ZipFile_open aifm = Ok z
    /\ read z member_ = Ok data
    /\ r = SendFile data (guess_mimetype member_) (PurePath.name member_).
Proof.
  unfold send_member.
  destruct (ZipFile_open aifm) as [z|e]; cbn [bind]; [|discriminate].
  destruct (read z member_) as [data|e] eqn:Hread; cbn [bind]; [|discriminate].
  intros [= <-]. exists z, data. repeat split. exact Hread.
Qed.

(** X21. The track-info route never fails: without a playlist it answers
    that there is no track and leaves the state as it is; with a playlist it
    answers the descriptor of the track at the clamped index, which in a
    state whose cache is valid is the descriptor a fresh computation
    gives. *)
Theorem api_track_info_answers (state : PaionState) (index : Z) :
  (tracks state = [] -> api_track_info state index = Ok (NoTracks, state))
  /\ (tracks state <> [] ->
      exists aifm,
        nth_error (tracks state)
          (Z.to_nat (clamp index 0 (Z.of_nat (length (tracks state)) - 1))) = Some aifm
        /\ api_track_info state index
           = Ok (TrackInfo (get_track_info state aifm).1, (get_track_info state aifm).2)
        /\ (cache_valid state ->
            (get_track_info state aifm).1 = (get_track_info fresh_state aifm).1)).
Proof.
  split.
  - intros Hempty. unfold api_track_info, route_track. rewrite Hempty. reflexivity.
  - intros Hne. destruct (route_track_some state index Hne) as (aifm & Hroute & _ & Hnth).
    exists aifm. split; [exact Hnth|]. split.
    + unfold api_track_info. rewrite Hroute. cbn [bind].
      destruct (get_track_info state aifm). reflexivity.
    + intros Hvalid. apply valid_descriptor. exact Hvalid.
Qed.

(** X22. The asset route never fails, and it serves only what asset
    resolution chose.  A kind that, lower-cased and stripped of white
    space, is other than declaration, prompt, lyrics and manifest (the
    cover too) is answered 404 with the state untouched; and
    in a state whose cache is valid, a file that is sent holds the bytes of
    the member that [pick_asset_member] returns for the kind in the archive
    of a track of the playlist, with the media type of that member's name. *)
Theorem api_asset_serves_resolved_member (state : PaionState) (index : Z) (kind : string) :
  let k := Str.strip (str_lower kind) in
  (exists resp state', api_asset state index kind = Ok (resp, state'))
  /\ (Str.mem k ["declaration"; "prompt"; "lyrics"; "manifest"] = false ->
      api_asset state index kind = Ok (NotFound, state))
  /\ (cache_valid state ->
      forall data mimetype download_name state',
        api_asset state index kind = Ok (SendFile data mimetype download_name, state') ->
        exists aifm z m,
          In aifm (tracks state)
          /\ ZipFile_open aifm = Ok z
          /\ pick_asset_member z k = Some m
          /\ read z m = Ok data
          /\ mimetype = guess_mimetype m
          /\ download_name = PurePath.name m).
Proof.
  intros k. unfold api_asset. fold k.
  destruct (tracks state) as [|t ts] eqn:Htracks.
  { split; [eauto|]. split; [reflexivity|]. intros _ data mt dn st'. discriminate. }
  destruct (Str.mem k ["declaration"; "prompt"; "lyrics"; "manifest"]) eqn:Hk; cbn [negb].
  2: { split; [eauto|]. split; [reflexivity|]. intros _ data mt dn st'. discriminate. }
  destruct (route_track_some state index) as (aifm & Hroute & Hin & _).
  { rewrite Htracks. discriminate. }
  rewrite Hroute. cbn [bind]. rewrite Htracks in Hin.
  destruct (get_track_info state aifm) as [info st1] eqn:Hinfo.
  destruct (String.eqb (member (asset_of_kind (assets info) k)) "") eqn:Hmember.
  { split; [eauto|]. split; [discriminate|]. intros _ data mt dn st'. discriminate. }
  apply String.eqb_neq in Hmember.
  destruct (send_member aifm (member (asset_of_kind (assets info) k))) as [r|e] eqn:Hsend.
  2: { split; [eauto|]. split; [discriminate|]. intros _ data mt dn st'. discriminate. }
  split; [eauto|]. split; [discriminate|].
  intros Hvalid data mt dn st' [= Hr Hst].
  destruct (send_member_file _ _ _ Hsend) as (z & data' & Hopen & Hread & Hfile).
  rewrite Hfile in Hr. injection Hr as Hdata Hmt Hdn. subst data mt dn.
  exists aifm, z, (member (asset_of_kind (assets info) k)).
  split; [exact Hin|]. split; [exact Hopen|].
  split; [|split; [exact Hread|split; reflexivity]].
  assert (info = (get_track_info fresh_state aifm).1) as Hfresh.
  { rewrite <- (valid_descriptor state aifm Hvalid), Hinfo. reflexivity. }
  assert (assets info = track_assets aifm) as Hassets
      by (rewrite Hfresh; apply fresh_assets).
  rewrite Hassets in Hmember |- *. unfold track_assets in Hmember |- *. rewrite Hopen in *.
  apply mem_In in Hk.
  destruct Hk as [<- | [<- | [<- | [<- | []]]]];
    apply track_asset_member; first [reflexivity | exact Hmember].
Qed.

(** X23. The cover route never fails, and in a state whose cache is valid a
    cover that is sent holds the bytes of the member that
    [find_cover_member] returns in the archive of a track of the playlist,
    with the media type of that member's name. *)
Theorem api_cover_serves_cover_member (state : PaionState) (index : Z) :
  (exists resp state', api_cover state index = Ok (resp, state'))
  /\ (cache_valid state ->
      forall data mimetype download_name state',
        api_cover state index = Ok (SendFile data mimetype download_name, state') ->
        exists aifm z m,
          In aifm (tracks state)
          /\ ZipFile_open aifm = Ok z
          /\ find_cover_member z = Some m
          /\ read z m = Ok data
          /\ mimetype = guess_mimetype m
          /\ download_name = PurePath.name m).
Proof.
  unfold api_cover.
  destruct (tracks state) as [|t ts] eqn:Htracks.
  { unfold route_track. rewrite Htracks. cbn [bind].
    split; [eauto|]. intros _ data mt dn st'. discriminate. }
  destruct (route_track_some state index) as (aifm & Hroute & Hin & _).
  { rewrite Htracks. discriminate. }
  rewrite Hroute. cbn [bind]. rewrite Htracks in Hin.
  destruct (get_track_info state aifm) as [info st1] eqn:Hinfo.
  destruct (String.eqb (member (cover (assets info))) "") eqn:Hmember.
  { split; [eauto|]. intros _ data mt dn st'. discriminate. }
  apply String.eqb_neq in Hmember.
  destruct (send_member aifm (member (cover (assets info)))) as [r|e] eqn:Hsend.
  2: { split; [eauto|]. intros _ data mt dn st'. discriminate. }
  split; [eauto|].
  intros Hvalid data mt dn st' [= Hr Hst].
  destruct (send_member_file _ _ _ Hsend) as (z & data' & Hopen & Hread & Hfile).
  rewrite Hfile in Hr. injection Hr as Hdata Hmt Hdn. subst data mt dn.
  exists aifm, z, (member (cover (assets info))).
  split; [exact Hin|]. split; [exact Hopen|].
  split; [|split; [exact Hread|split; reflexivity]].
  assert (info = (get_track_info fresh_state aifm).1) as Hfresh.
  { rewrite <- (valid_descriptor state aifm Hvalid), Hinfo. reflexivity. }
  assert (assets info = track_assets aifm) as Hassets
      by (rewrite Hfresh; apply fresh_assets).
  rewrite Hassets in Hmember |- *. unfold track_assets in Hmember |- *. rewrite Hopen in *.
  cbn [cover] in Hmember |- *.
  apply (track_asset_member z "cover"); [reflexivity | exact Hmember].
Qed.

End Player.

(** ** The properties on the sample archives *)

(** The built-in verifier and the track descriptor on the sample
    environment, with and without an external verifier. *)
Definition sample_verify (aifm_path : Path) : bool * list BuiltinCheck :=
  builtin_verify_aifm Sample.container_str Sample.sha256_hexdigest Sample.json_loads
    Sample.ZipFile_open aifm_path.

Definition sample_info (verify_fn : option (Path -> result (value * list CheckObject)))
    (aifm_path : Path) : Info :=
  (get_track_info Sample.unicode_lower Sample.container_str Sample.sha256_hexdigest
      Sample.json_loads
     Sample.ZipFile_open verify_fn fresh_state aifm_path).1.



(** C1 fails as stated: no check fails, the verifier said not ok, and the
    outcome is not ok with [TAMPERED], not ok with [INTACT]. *)
Lemma normalize_keeps_failed_verdict :
  Forall (fun d => detail_fails d = false) [detail true "payload/song.wav" ""]
  /\ normalize_verify Sample.container_str [detail true "payload/song.wav" ""] false
     = (false, "TAMPERED", false)
  /\ verify (sample_info (Some Sample.strict_verify) "good.aifm")
     = {| verify_ok := false; status := "TAMPERED";
          details := [detail true "payload/song.wav" ""];
          available := true; engine := "verify_aifm.py" |}.
Proof. split; [repeat constructor | split; reflexivity]. Qed.

Lemma normalize_verify_tristate_witness :
  normalize_verify Sample.container_str
    [detail false "manifest.json" "sha256 mismatch"; detail true "payload/song.wav" ""] true
  = (true, "INTACT (MANIFEST WARN)", true)
  /\ normalize_verify Sample.container_str [detail true "payload/song.wav" ""] true
     = (true, "INTACT", false).
Proof.
  split.
  - apply (normalize_verify_tristate Sample.container_str Sample.sha256_hexdigest
             Sample.json_loads Sample.ZipFile_open).
    + constructor. reflexivity.
    + repeat constructor. discriminate.
  - apply (proj1 (normalize_verify_tristate Sample.container_str Sample.sha256_hexdigest
                    Sample.json_loads Sample.ZipFile_open
                    [detail true "payload/song.wav" ""] true)).
    repeat constructor.
Defined.

(** C2 fails as stated: the preconditions hold, two entries are declared,
    the first one fails its digest and the member of the second one is in
    the archive and fails the CRC check when it is read.  The exception
    leaves the loop, and the verifier returns the one check of its
    [except] clause: the check of the first entry is dropped and the second
    entry gets none. *)
Lemma unreadable_member_drops_checks :
  Sample2.ZipFile_open "corrupt.aifm" = Ok Sample2.corrupt_aifm
  /\ In "manifest.json" (namelist Sample2.corrupt_aifm)
  /\ safe_get Sample2.corrupt_manifest "integrity.algorithm" (VStr "sha256") = VStr "sha256"
  /\ safe_get Sample2.corrupt_manifest "integrity.hashed_files" VNone
     = VDict Sample2.corrupt_items
  /\ length Sample2.corrupt_items = 2%nat
  /\ (exists st,
        verify_entry Sample.container_str Sample.sha256_hexdigest Sample2.corrupt_aifm
          (names_of Sample2.corrupt_aifm) initial_state
          "metadata/cover.png" (VDict [("sha256", VStr "7")]) = Ok st
        /\ checks st = [{| ok := false; path := "metadata/cover.png";
                           reason := "sha256 mismatch" |}])
  /\ builtin_verify_aifm Sample.container_str Sample.sha256_hexdigest Sample2.json_loads
       Sample2.ZipFile_open "corrupt.aifm"
     = (false, [{| ok := false; path := "builtin_verify";
                   reason := "Bad CRC-32 for file 'payload/song.wav'" |}]).
Proof.
  split; [reflexivity|]. split; [simpl; tauto|]. split; [reflexivity|].
  split; [reflexivity|]. split; [reflexivity|]. split; [|reflexivity].
  eexists. split; reflexivity.
Qed.

Lemma builtin_checks_every_entry_witness :
  exists cs,
    (sample_verify "good.aifm").2 = cs
    /\ length cs = 3%nat
    /\ map path cs = ["payload/song.wav"; "metadata/cover.png"; "metadata/notes.txt"].
Proof.
  destruct (builtin_checks_every_entry Sample.container_str Sample.sha256_hexdigest
              Sample.json_loads Sample.ZipFile_open "good.aifm" Sample.good_aifm
              [Byte.x01] Sample.good_manifest
              [("algorithm", VStr "SHA256");
               ("hashed_files",
                VDict [("payload/song.wav", VDict [("sha256", VStr "9"); ("bytes", VInt 5)]);
                       ("metadata/cover.png", VDict [("sha256", VStr "2"); ("bytes", VInt 2)]);
                       ("metadata/notes.txt", VDict [("sha256", VStr "0")])])]
              [("payload/song.wav", VDict [("sha256", VStr "9"); ("bytes", VInt 5)]);
               ("metadata/cover.png", VDict [("sha256", VStr "2"); ("bytes", VInt 2)]);
               ("metadata/notes.txt", VDict [("sha256", VStr "0")])])
    as (cs & Hcs & Hlen & Hpaths & _).
  - reflexivity.
  - constructor.
  - reflexivity.
  - reflexivity.
  - reflexivity.
  - reflexivity.
  - reflexivity.
  - discriminate.
  - intros relpath meta [[= <- <-] | [[= <- <-] | [[= <- <-] | []]]] Hin.
    + eexists. reflexivity.
    + eexists. reflexivity.
    + exfalso. apply list_elem_of_In in Hin. simpl in Hin.
      repeat (destruct Hin as [Hin | Hin]; [discriminate Hin|]). exact Hin.
  - exists cs. repeat split; assumption.
Defined.

(** C3 fails as stated: the manifest has [null] as its [integrity], so
    [hashed_files] is missing; the lookup of the algorithm raises, and the
    single check is the one of the [except] clause, not
    [integrity.hashed_files / missing/empty hashed_files]. *)
Lemma null_integrity_is_generic_failure :
  Sample2.ZipFile_open "null.aifm" = Ok Sample2.null_integrity_aifm
  /\ In "manifest.json" (namelist Sample2.null_integrity_aifm)
  /\ read Sample2.null_integrity_aifm "manifest.json" = Ok [Byte.x05]
  /\ Sample2.json_loads [Byte.x05] = Ok (VDict [("integrity", VNone)])
  /\ safe_get (VDict [("integrity", VNone)]) "integrity.hashed_files" VNone = VNone
  /\ builtin_verify_aifm Sample.container_str Sample.sha256_hexdigest Sample2.json_loads
       Sample2.ZipFile_open "null.aifm"
     = (false, [{| ok := false; path := "builtin_verify";
                   reason := "'NoneType' object has no attribute 'get'" |}])
  /\ "builtin_verify" <> "integrity.hashed_files".
Proof.
  split; [reflexivity|]. split; [simpl; tauto|]. repeat split; discriminate.
Qed.

Lemma precondition_failure_single_check_witness :
  sample_verify "empty.aifm"
  = (false, [{| ok := false; path := "manifest.json"; reason := "missing manifest.json" |}])
  /\ sample_verify "bare.aifm"
     = (false, [{| ok := false; path := "integrity.hashed_files";
                   reason := "missing/empty hashed_files" |}]).
Proof.
  split.
  - apply (precondition_failure_single_check Sample.container_str Sample.sha256_hexdigest
             Sample.json_loads Sample.ZipFile_open "empty.aifm" Sample.empty_aifm eq_refl).
    intros Hin. apply list_elem_of_In in Hin. simpl in Hin.
    repeat (destruct Hin as [Hin | Hin]; [discriminate Hin|]). exact Hin.
  - apply (precondition_failure_single_check Sample.container_str Sample.sha256_hexdigest
             Sample.json_loads Sample.ZipFile_open "bare.aifm" Sample.bare_aifm eq_refl)
      with (raw := [Byte.x02]) (m := Sample.bare_manifest) (integ := []).
    + constructor.
    + reflexivity.
    + reflexivity.
    + reflexivity.
    + left. reflexivity.
    + left. reflexivity.
Defined.



(** C6 fails as stated: [creator.name] resolves to the empty string, which
    is not null, so the lookup of the specification returns it; the code
    skips it and returns the value of [author]. *)
Lemma lookup_skips_empty_string :
  safe_get Sample.good_manifest "creator.name" VNone = VStr ""
  /\ spec_lookup Sample.good_manifest ["creator.name"; "author"] (VStr "—") = VStr ""
  /\ lookup Sample.good_manifest ["creator.name"; "author"] (VStr "—") = VStr "Bob"
  /\ author_value Sample.good_manifest = VStr "Bob"
  /\ author (fields (sample_info None "good.aifm")) = "Bob".
Proof. repeat split. Qed.

Lemma lookup_first_truthy_witness :
  lookup Sample.good_manifest ["creator.name"; "author"] (VStr "—")
  = safe_get Sample.good_manifest "author" VNone
  /\ lookup Sample.bare_manifest ["mode"; "aifx.governance.mode"] (VStr "—") = VStr "—".
Proof.
  split.
  - apply (lookup_first_truthy Sample.good_manifest ["creator.name"; "author"] (VStr "—"))
      with (pre := ["creator.name"]) (post := []).
    + reflexivity.
    + repeat constructor.
    + reflexivity.
  - apply (proj1 (proj2 (lookup_first_truthy Sample.bare_manifest
                            ["mode"; "aifx.governance.mode"] (VStr "—")))).
    repeat constructor.
Defined.

Lemma external_failure_is_error_witness :
  verify (sample_info (Some Sample.failing_verify) "good.aifm")
  = {| verify_ok := false; status := "ERROR";
       details := [detail false "verify_aifm.py" "verifier crashed"];
       available := true; engine := "verify_aifm.py" |}.
Proof.
  apply (external_failure_is_error Sample.unicode_lower Sample.container_str Sample.sha256_hexdigest
           Sample.json_loads Sample.ZipFile_open (Some Sample.failing_verify) fresh_state
           "good.aifm" Sample.failing_verify "verifier crashed").
  - reflexivity.
  - reflexivity.
  - reflexivity.
Defined.

(** C8 fails as stated: the path is not an archive, the built-in path
    catches the failure, and the status of the outcome is [TAMPERED],
    neither [ERROR] nor [UNKNOWN]. *)
Lemma unreadable_archive_is_tampered :
  Sample.ZipFile_open "notes.txt" = Raise "File is not a zip file"
  /\ status (verify (sample_info None "notes.txt")) = "TAMPERED"
  /\ status (verify (sample_info None "notes.txt")) <> "ERROR"
  /\ status (verify (sample_info None "notes.txt")) <> "UNKNOWN".
Proof. repeat split; discriminate. Qed.

Lemma builtin_failure_is_tampered_witness :
  verify (sample_info None "notes.txt")
  = {| verify_ok := false; status := "TAMPERED";
       details := [detail false "builtin_verify" "File is not a zip file"];
       available := true; engine := "builtin" |}.
Proof.
  apply (builtin_failure_is_tampered Sample.unicode_lower Sample.container_str
      Sample.sha256_hexdigest
           Sample.json_loads Sample.ZipFile_open None fresh_state "notes.txt"
           "File is not a zip file").
  - reflexivity.
  - reflexivity.
  - reflexivity.
Defined.

(** The sort key is the lower-cased path of Unicode: the capital A with
    grave sorts as the small one, U+00E0, after the multiplication sign
    U+00D7, although the capital letter itself, U+00C0, is before it. *)
Example sort_key_lower_cases_unicode :
  String.ltb (Sample.A_grave +:+ ".txt") (Sample.times_sign +:+ ".txt") = true
  /\ str_lower Sample.unicode_lower ("metadata/" +:+ Sample.A_grave +:+ ".txt")
     = "metadata/" +:+ Sample.a_grave +:+ ".txt"
  /\ find_prompt_member_anyname Sample.unicode_lower
       (Sample.archive [("metadata/" +:+ Sample.A_grave +:+ ".txt", []);
                        ("metadata/" +:+ Sample.times_sign +:+ ".txt", [])])
     = Some ("metadata/" +:+ Sample.times_sign +:+ ".txt").
Proof. repeat split. Qed.

Lemma choose_member_by_ext_sorted_head_witness :
  find_declaration_member_anyname Sample.unicode_lower Sample.good_aifm
  = Some "metadata/decl.pdf".
Proof.
  destruct (choose_member_by_ext_sorted_head Sample.unicode_lower Sample.good_aifm ["metadata/"]
              declaration_exts declaration_hints)
    as (_ & _ & _ & _ & _ & _ & _ & _ & _ & Hdecl).
  destruct Hdecl as (m & Hm & _ & Honly).
  - simpl. tauto.
  - simpl. tauto.
  - intros n (Hn & _) (h & Hh & Hc). simpl in Hn, Hh.
    repeat (destruct Hn as [<- | Hn];
            [repeat (destruct Hh as [<- | Hh]; [discriminate Hc|]); exact Hh|]).
    exact Hn.
  - rewrite Hm. f_equal. apply Honly.
    intros n (Hn & _) Hsuffix. simpl in Hn.
    repeat (destruct Hn as [<- | Hn]; [first [reflexivity | discriminate Hsuffix]|]).
    destruct Hn.
Defined.



(** A hint restricts the pool: with [metadata/a.txt] and
    [metadata/my_lyrics.txt] in the archive, lyrics resolution returns the
    hinted member although the other one sorts first. *)
Example lyrics_hint_override :
  find_lyrics_member_anyname Sample.unicode_lower
    (Sample.archive [("metadata/a.txt", []); ("metadata/my_lyrics.txt", [])])
  = Some "metadata/my_lyrics.txt"
  /\ find_prompt_member_anyname Sample.unicode_lower
       (Sample.archive [("metadata/a.txt", []); ("metadata/my_lyrics.txt", [])])
     = Some "metadata/a.txt".
Proof. split; reflexivity. Qed.

(** The descriptor of a track is computed once: the second request is
    answered from the cache. *)
Example second_request_is_cached :
  let first :=
    get_track_info Sample.unicode_lower Sample.container_str Sample.sha256_hexdigest
        Sample.json_loads
      Sample.ZipFile_open None fresh_state "good.aifm" in
  info_cache first.2 !! "good.aifm" = Some first.1.
Proof. intros first. apply lookup_insert_eq. Qed.

(** ** Further properties on the sample archives *)

Definition sample2_verify (aifm_path : Path) : Verify :=
  track_verify Sample.container_str Sample.sha256_hexdigest Sample2.json_loads
    Sample2.ZipFile_open None aifm_path.

Definition sample_track_verify (aifm_path : Path) : Verify :=
  track_verify Sample.container_str Sample.sha256_hexdigest Sample.json_loads
    Sample.ZipFile_open None aifm_path.

Definition sample_playlist : PaionState :=
  {| tracks := ["good.aifm"; "bare.aifm"; "empty.aifm"]; playlist_version := 1;
     info_cache := ∅ |}.

Lemma clamp_within_bounds_witness :
  clamp (-3) 0 2 = 0 /\ clamp 7 0 2 = 2 /\ clamp 1 0 2 = 1 /\ clamp 5 0 (-1) = 0.
Proof.
  destruct (proj1 (clamp_within_bounds (-3) 0 2)) as (_ & _ & Hlow & _); [lia|].
  destruct (proj1 (clamp_within_bounds 7 0 2)) as (_ & _ & _ & Hhigh); [lia|].
  destruct (proj1 (clamp_within_bounds 1 0 2)) as (_ & Hin & _); [lia|].
  split; [apply Hlow; lia|]. split; [apply Hhigh; lia|]. split; [apply Hin; lia|].
  apply (proj2 (clamp_within_bounds 5 0 (-1))). lia.
Defined.

Lemma route_track_in_range_witness :
  route_track sample_playlist (-1) = Ok (Some "good.aifm")
  /\ route_track sample_playlist 40 = Ok (Some "empty.aifm").
Proof.
  destruct (route_track_in_range sample_playlist (-1)) as (a & Ha & _ & _ & Hfirst & _);
    [discriminate|].
  destruct (route_track_in_range sample_playlist 40) as (b & Hb & _ & _ & _ & Hlast);
    [discriminate|].
  split.
  - rewrite Ha. specialize (Hfirst ltac:(lia)). injection Hfirst as <-. reflexivity.
  - rewrite Hb. specialize (Hlast ltac:(simpl; lia)). injection Hlast as <-. reflexivity.
Defined.

Lemma pick_asset_member_in_archive_witness :
  In "metadata/decl.pdf" (namelist Sample.good_aifm).
Proof.
  apply (pick_asset_member_in_archive Sample.unicode_lower Sample.good_aifm " Declaration "
      "metadata/decl.pdf").
  reflexivity.
Defined.

Lemma cache_is_transparent_witness :
  let state1 :=
    (get_track_info Sample.unicode_lower Sample.container_str Sample.sha256_hexdigest
        Sample.json_loads
       Sample.ZipFile_open None fresh_state "good.aifm").2 in
  (get_track_info Sample.unicode_lower Sample.container_str Sample.sha256_hexdigest
      Sample.json_loads
     Sample.ZipFile_open None state1 "good.aifm").1
  = sample_info None "good.aifm".
Proof.
  intros state1.
  assert (cache_valid Sample.unicode_lower Sample.container_str Sample.sha256_hexdigest
      Sample.json_loads
            Sample.ZipFile_open None fresh_state) as Hfresh.
  { intros q info Hq. unfold fresh_state in Hq. cbn [info_cache] in Hq.
    rewrite lookup_empty in Hq. discriminate Hq. }
  destruct (cache_is_transparent Sample.unicode_lower Sample.container_str Sample.sha256_hexdigest
              Sample.json_loads Sample.ZipFile_open None fresh_state "good.aifm" Hfresh)
    as [_ Hvalid].
  destruct (cache_is_transparent Sample.unicode_lower Sample.container_str Sample.sha256_hexdigest
              Sample.json_loads Sample.ZipFile_open None state1 "good.aifm" Hvalid)
    as [Hsame _].
  exact Hsame.
Defined.

Lemma sample2_matches (z : ZipFile) (relpath : string) (meta : value) (data : bytes) :
  In relpath (namelist z) ->
  read z relpath = Ok data ->
  (isinstance_int (expected_bytes_of meta) = true ->
   int_ne (Z.of_nat (length data)) (expected_bytes_of meta) = false) ->
  (expected_hash_of Sample.container_str meta <> "" ->
   Str.lower (Sample.sha256_hexdigest data) = expected_hash_of Sample.container_str meta) ->
  entry_matches Sample.container_str Sample.sha256_hexdigest z (relpath, meta).
Proof.
  intros Hin Hread Hsize Hdigest. split; [apply list_elem_of_In; exact Hin|].
  exists data. repeat split; assumption.
Defined.

Lemma intact_container_is_intact_witness :
  verify_ok (sample2_verify "intact.aifm") = true
  /\ status (sample2_verify "intact.aifm") = "INTACT"
  /\ details (sample2_verify "intact.aifm")
     = [detail true "payload/song.wav" ""; detail true "metadata/cover.png" ""].
Proof.
  destruct (intact_container_is_intact Sample.container_str Sample.sha256_hexdigest
              Sample2.json_loads Sample2.ZipFile_open None "intact.aifm" Sample2.intact_aifm
              [Byte.x03] Sample2.intact_manifest
              [("hashed_files", VDict Sample2.intact_items)] Sample2.intact_items)
    as [_ Hverify].
  - reflexivity.
  - reflexivity.
  - constructor.
  - reflexivity.
  - reflexivity.
  - reflexivity.
  - reflexivity.
  - reflexivity.
  - discriminate.
  - repeat constructor.
    + apply (sample2_matches _ _ _ Sample.song); [simpl; tauto | reflexivity | reflexivity |].
      intros _. reflexivity.
    + apply (sample2_matches _ _ _ Sample.cover_png);
        [simpl; tauto | reflexivity | discriminate |].
      intros _. reflexivity.
  - unfold sample2_verify. rewrite Hverify. repeat split.
Defined.

Lemma mismatching_entry_is_tampered_witness :
  verify_ok (sample_track_verify "good.aifm") = false
  /\ status (sample_track_verify "good.aifm") = "TAMPERED".
Proof.
  apply (mismatching_entry_is_tampered Sample.container_str Sample.sha256_hexdigest
           Sample.json_loads Sample.ZipFile_open None "good.aifm" Sample.good_aifm
           [Byte.x01] Sample.good_manifest
           [("algorithm", VStr "SHA256");
            ("hashed_files",
             VDict [("payload/song.wav", VDict [("sha256", VStr "9"); ("bytes", VInt 5)]);
                    ("metadata/cover.png", VDict [("sha256", VStr "2"); ("bytes", VInt 2)]);
                    ("metadata/notes.txt", VDict [("sha256", VStr "0")])])]
           [("payload/song.wav", VDict [("sha256", VStr "9"); ("bytes", VInt 5)]);
            ("metadata/cover.png", VDict [("sha256", VStr "2"); ("bytes", VInt 2)]);
            ("metadata/notes.txt", VDict [("sha256", VStr "0")])]
           ("payload/song.wav", VDict [("sha256", VStr "9"); ("bytes", VInt 5)])).
  - reflexivity.
  - reflexivity.
  - constructor.
  - reflexivity.
  - reflexivity.
  - reflexivity.
  - reflexivity.
  - reflexivity.
  - left. reflexivity.
  - discriminate.
  - intros (_ & data & Hread & Hsize & _).
    injection Hread as <-. specialize (Hsize eq_refl). discriminate Hsize.
Defined.

Lemma manifest_only_mismatch_is_warning_witness :
  verify_ok (sample2_verify "warn.aifm") = true
  /\ status (sample2_verify "warn.aifm") = "INTACT (MANIFEST WARN)".
Proof.
  destruct (manifest_only_mismatch_is_warning Sample.container_str Sample.sha256_hexdigest
              Sample2.json_loads Sample2.ZipFile_open None "warn.aifm" Sample2.warn_aifm
              [Byte.x04] Sample2.warn_manifest
              [("algorithm", VStr "sha256"); ("hashed_files", VDict Sample2.warn_items)]
              Sample2.warn_items (VDict [("bytes", VInt 99)]))
    as (_ & Hok & Hstatus).
  - reflexivity.
  - reflexivity.
  - constructor.
  - reflexivity.
  - reflexivity.
  - reflexivity.
  - reflexivity.
  - reflexivity.
  - left. reflexivity.
  - intros (_ & data & Hread & Hsize & _).
    injection Hread as <-. specialize (Hsize eq_refl). discriminate Hsize.
  - intros item [<- | [<- | []]] Hkey; [destruct (Hkey eq_refl)|].
    apply (sample2_matches _ _ _ Sample.song); [simpl; tauto | reflexivity | reflexivity |].
    intros Hdeclared. destruct (Hdeclared eq_refl).
  - split; assumption.
Defined.

Lemma missing_manifest_is_warning_witness :
  sample_verify "empty.aifm"
  = (false, [{| ok := false; path := "manifest.json"; reason := "missing manifest.json" |}])
  /\ verify_ok (sample_track_verify "empty.aifm") = true
  /\ status (sample_track_verify "empty.aifm") = "INTACT (MANIFEST WARN)".
Proof.
  destruct (missing_manifest_is_warning Sample.container_str Sample.sha256_hexdigest
              Sample.json_loads Sample.ZipFile_open None "empty.aifm" Sample.empty_aifm)
    as [_ Hverify].
  - reflexivity.
  - reflexivity.
  - intros Hin. apply list_elem_of_In in Hin. simpl in Hin.
    repeat (destruct Hin as [Hin | Hin]; [discriminate Hin|]). exact Hin.
  - split; [reflexivity|]. unfold sample_track_verify. rewrite Hverify. split; reflexivity.
Defined.

Lemma normalize_ignores_order_and_passes_witness :
  normalize_verify Sample.container_str
    [detail true "payload/song.wav" ""; detail false "manifest.json" "sha256 mismatch";
     detail true "metadata/cover.png" ""] true
  = normalize_verify Sample.container_str
      [detail false "manifest.json" "sha256 mismatch"; detail true "payload/song.wav" ""] true.
Proof.
  apply (normalize_ignores_order_and_passes Sample.container_str
           [detail false "manifest.json" "sha256 mismatch"; detail true "payload/song.wav" ""]
           [detail true "payload/song.wav" ""; detail false "manifest.json" "sha256 mismatch"]
           [detail true "metadata/cover.png" ""] true).
  - apply Permutation_swap.
  - repeat constructor.
Defined.

Lemma safe_get_follows_path_witness :
  safe_get (VDict [("creator", VDict [("name", VStr ""); ("id", VInt 7)]);
                   ("author", VStr "Bob")]) "creator.id" VNone = VInt 7
  /\ safe_get (nest ["aifx"; "governance"; "mode"] (VStr "assisted"))
       "aifx.governance.mode" VNone = VStr "assisted".
Proof.
  destruct (safe_get_follows_path
              [("creator", VDict [("name", VStr ""); ("id", VInt 7)]);
               ("author", VStr "Bob")] "creator" VNone eq_refl) as (_ & Hstep & _).
  destruct (safe_get_follows_path [] "aifx" VNone eq_refl) as (_ & _ & Hnest).
  split.
  - exact (Hstep "id").
  - apply (Hnest ["governance"; "mode"]). repeat constructor.
Defined.

Lemma unusable_manifest_gives_placeholders_witness :
  fields (sample_info None "notes.txt") = placeholder_fields
  /\ fields (sample_info None "empty.aifm") = placeholder_fields.
Proof.
  split.
  - apply (unusable_manifest_gives_placeholders Sample.unicode_lower Sample.container_str
      Sample.sha256_hexdigest
             Sample.json_loads Sample.ZipFile_open None fresh_state "notes.txt").
    + reflexivity.
    + exact I.
  - apply (unusable_manifest_gives_placeholders Sample.unicode_lower Sample.container_str
      Sample.sha256_hexdigest
             Sample.json_loads Sample.ZipFile_open None fresh_state "empty.aifm").
    + reflexivity.
    + left. intros Hin. apply list_elem_of_In in Hin. simpl in Hin.
      repeat (destruct Hin as [Hin | Hin]; [discriminate Hin|]). exact Hin.
Defined.

Lemma empty_cache_valid (self : PaionState) :
  info_cache self = ∅ ->
  cache_valid Sample.unicode_lower Sample.container_str Sample.sha256_hexdigest Sample.json_loads
    Sample.ZipFile_open None self.
Proof.
  intros Hempty q info Hq. rewrite Hempty, lookup_empty in Hq. discriminate Hq.
Defined.

Lemma resolved_assets_are_typed_witness :
  track_asset Sample.unicode_lower Sample.good_aifm "declaration" (no_asset "")
  = {| asset_exists := true; member := "metadata/decl.pdf"; ext := "pdf" |}
  /\ guess_mimetype "metadata/decl.pdf" = "application/pdf".
Proof.
  assert (find_declaration_member_anyname Sample.unicode_lower Sample.good_aifm = Some
      "metadata/decl.pdf")
    as Hfound by (vm_compute; reflexivity).
  destruct (proj1 (resolved_assets_are_typed Sample.unicode_lower Sample.good_aifm
      "metadata/decl.pdf"
                     (no_asset "")) Hfound) as [Hpdf | [_ Htxt]].
  - exact Hpdf.
  - vm_compute in Htxt. discriminate Htxt.
Defined.

Lemma cover_prefers_exact_paths_witness :
  find_cover_member
    (Sample.archive [("art/cover.png", []); ("COVER.JPG", []); ("cover.webp", [])])
  = Some "cover.webp"
  /\ find_cover_member (Sample.archive [("art/cover.png", []); ("COVER.JPG", [])])
     = Some "COVER.JPG".
Proof.
  split.
  - apply (proj1 (cover_prefers_exact_paths _)
             ["metadata/cover.png"; "metadata/cover.jpg"; "metadata/cover.jpeg";
              "metadata/cover.webp"; "cover.png"; "cover.jpg"; "cover.jpeg"]
             "cover.webp" []).
    + reflexivity.
    + simpl. tauto.
    + intros q Hq Hin. simpl in Hq, Hin.
      repeat (destruct Hq as [<- | Hq];
              [repeat (destruct Hin as [Hin | Hin]; [discriminate Hin|]); exact Hin|]).
      exact Hq.
  - apply (proj1 (proj2 (cover_prefers_exact_paths _))) with (before := ["art/cover.png"])
                                                             (after := []).
    + intros q Hq Hin. simpl in Hq, Hin.
      repeat (destruct Hq as [<- | Hq];
              [repeat (destruct Hin as [Hin | Hin]; [discriminate Hin|]); exact Hin|]).
      exact Hq.
    + reflexivity.
    + reflexivity.
    + intros n [<- | []]. reflexivity.
Defined.

Lemma builtin_ok_is_kept_witness :
  verify_ok (sample2_verify "warn.aifm") = true.
Proof.
  apply (proj2 (proj2 (builtin_ok_is_kept Sample.container_str Sample.sha256_hexdigest
                         Sample2.json_loads Sample2.ZipFile_open None "warn.aifm"))).
  - reflexivity.
  - vm_compute. reflexivity.
Defined.

Lemma api_track_info_answers_witness :
  exists state',
    api_track_info Sample.unicode_lower Sample.container_str Sample.sha256_hexdigest
        Sample.json_loads
      Sample.ZipFile_open None sample_playlist 7
    = Ok (TrackInfo (sample_info None "empty.aifm"), state').
Proof.
  destruct (proj2 (api_track_info_answers Sample.unicode_lower Sample.container_str
      Sample.sha256_hexdigest
                     Sample.json_loads Sample.ZipFile_open None sample_playlist 7))
    as (aifm & Hnth & Hanswer & Hfresh); [discriminate|].
  vm_compute in Hnth. injection Hnth as <-.
  eexists. rewrite Hanswer, (Hfresh (empty_cache_valid sample_playlist eq_refl)).
  reflexivity.
Defined.

Lemma api_asset_serves_resolved_member_witness :
  exists aifm z m,
    In aifm (tracks sample_playlist)
    /\ Sample.ZipFile_open aifm = Ok z
    /\ pick_asset_member Sample.unicode_lower z "declaration" = Some m
    /\ read z m = Ok []
    /\ "application/pdf" = guess_mimetype m
    /\ "decl.pdf" = PurePath.name m.
Proof.
  eapply (proj2 (proj2 (api_asset_serves_resolved_member Sample.unicode_lower
                          Sample.container_str Sample.sha256_hexdigest Sample.json_loads
                          Sample.ZipFile_open None sample_playlist 0
                          (Sample.nbsp +:+ " Declaration" +:+ Sample.nbsp)))
            (empty_cache_valid sample_playlist eq_refl) [] "application/pdf" "decl.pdf").
  vm_compute. reflexivity.
Defined.

(** The kind of a request is stripped of the white space of Unicode: between
    no-break spaces, U+00A0, [Declaration] is the kind [declaration]. *)
Example kind_is_stripped_of_unicode_space :
  Str.strip (str_lower Sample.unicode_lower (Sample.nbsp +:+ " Declaration" +:+ Sample.nbsp))
  = "declaration"
  /\ pick_asset_member Sample.unicode_lower Sample.good_aifm
       (Sample.nbsp +:+ "Declaration" +:+ Sample.nbsp)
     = Some "metadata/decl.pdf"
  /\ Str.strip (String "226" (String "128" (String "137" "manifest")) +:+ Sample.nbsp)
     = "manifest".
Proof. repeat split. Qed.

Lemma api_cover_serves_cover_member_witness :
  exists aifm z m,
    In aifm (tracks sample_playlist)
    /\ Sample.ZipFile_open aifm = Ok z
    /\ find_cover_member z = Some m
    /\ read z m = Ok Sample.cover_png
    /\ "image/png" = guess_mimetype m
    /\ "cover.png" = PurePath.name m.
Proof.
  eapply (proj2 (api_cover_serves_cover_member Sample.unicode_lower Sample.container_str
                   Sample.sha256_hexdigest Sample.json_loads Sample.ZipFile_open None
                   sample_playlist (-2))
            (empty_cache_valid sample_playlist eq_refl) Sample.cover_png "image/png"
            "cover.png").
  vm_compute. reflexivity.
Defined.
